(** * Redfin median-sale-price scraper: a model of [redfin_scraping.py]

    The development embeds the scraper's three working parts
    ([navigate_to_city], the price-text conversion and the 36-iteration
    series loop of [get_median_sale_prices], and [main] with the
    destructor) as functions over an explicit world: the browser session,
    the console, the clock, the random source and the file system are a
    state machine supplied from outside, and every call the program makes
    to them is recorded in a log.

    Conventions.
    - Python [str] values are strings of 8-bit characters (code points
      below 256).
    - Python [float] values are exact rationals extended with the two
      infinities and NaN, the special values [float()] can read from text;
      binary64 rounding error and overflow are not modelled.
    - [dict] is a finite map ([gmap]); insertion order is not kept. *)

From Stdlib Require Import ZArith QArith Qround Lia Lqa.
From Stdlib Require Import Ascii String List.
From stdpp Require Import base option list list_numbers gmap strings pretty sorting.

Local Open Scope Z_scope.

(** ** Exceptions and outcomes *)

(** The exception classes the program can meet.  [KeyboardInterrupt] and
    [SystemExit] derive from [BaseException] only; the others derive from
    [Exception]. *)
Inductive exn_class :=
| ValueError
| OverflowError
| TimeoutError
| TimeoutException
| WebDriverException
| EOFError
| OSError
| KeyboardInterrupt
| SystemExit.

Record exn := Exn { exn_cls : exn_class; exn_msg : string }.

(** [isinstance(e, Exception)] *)
Definition is_Exception (e : exn) : bool :=
  match exn_cls e with
  | KeyboardInterrupt | SystemExit => false
  | _ => true
  end.

(** [isinstance(e, ValueError)] *)
Definition is_ValueError (e : exn) : bool :=
  match exn_cls e with
  | ValueError => true
  | _ => false
  end.

Inductive outcome (A : Type) :=
| Return (a : A)
| Raise (e : exn).
Arguments Return {A} a.
Arguments Raise {A} e.

(** ** Python text operations *)

Module PyStr.

Definition code (c : ascii) : Z := Z.of_N (N_of_ascii c).

(** [str.isspace] on one character, for code points below 256. *)
Definition is_space (c : ascii) : bool :=
  let n := code c in
  ((9 <=? n) && (n <=? 13)) || ((28 <=? n) && (n <=? 32))
  || (n =? 133) || (n =? 160).

Fixpoint lstrip_by (p : ascii -> bool) (s : list ascii) : list ascii :=
  match s with
  | c :: r => if p c then lstrip_by p r else s
  | [] => []
  end.

Definition rstrip_by (p : ascii -> bool) (s : list ascii) : list ascii :=
  rev (lstrip_by p (rev s)).

Definition chars (s : string) : list ascii := list_ascii_of_string s.
Definition text (l : list ascii) : string := string_of_list_ascii l.

(** [s.strip()] *)
Definition strip (s : string) : string :=
  text (rstrip_by is_space (lstrip_by is_space (chars s))).

(** [s.rstrip(c)] for a one-character argument *)
Definition rstrip_char (c : ascii) (s : string) : string :=
  text (rstrip_by (Ascii.eqb c) (chars s)).

(** [s.replace(c, '')] for a one-character pattern: every occurrence of
    [c] is dropped. *)
Definition remove_char (c : ascii) (s : string) : string :=
  text (List.filter (fun x => negb (Ascii.eqb c x)) (chars s)).

(** [c in s] for a one-character [c] *)
Definition contains (c : ascii) (s : string) : bool :=
  existsb (Ascii.eqb c) (chars s).

End PyStr.

(** ** Floating-point values *)

(** A Python [float]: a finite value, held as an exact rational, or one of
    the special values. *)
Inductive pyfloat :=
| Fin (q : Q)
| PInf
| NInf
| NaN.

Module PyFloat.

Local Open Scope Q_scope.

Definition is_nan (x : pyfloat) : bool :=
  match x with NaN => true | _ => false end.

(** Sign of a value as [-1], [0] or [1]; NaN has none. *)
Definition sgn (x : pyfloat) : option Z :=
  match x with
  | Fin q => Some (Z.sgn (Qnum q))
  | PInf => Some 1%Z
  | NInf => Some (-1)%Z
  | NaN => None
  end.

Definition signed_inf (s : Z) : pyfloat :=
  if (0 <? s)%Z then PInf else NInf.

(** [x * y] *)
Definition mul (x y : pyfloat) : pyfloat :=
  match x, y with
  | Fin a, Fin b => Fin (a * b)
  | _, _ =>
      match sgn x, sgn y with
      | Some sx, Some sy =>
          if (sx * sy =? 0)%Z then NaN else signed_inf (sx * sy)
      | _, _ => NaN
      end
  end.

(** [x + y] *)
Definition add (x y : pyfloat) : pyfloat :=
  match x, y with
  | Fin a, Fin b => Fin (a + b)
  | NaN, _ | _, NaN => NaN
  | PInf, NInf | NInf, PInf => NaN
  | PInf, _ | _, PInf => PInf
  | NInf, _ | _, NInf => NInf
  end.

(** [x <= y]; every comparison with NaN is false. *)
Definition le (x y : pyfloat) : Prop :=
  match x, y with
  | NaN, _ | _, NaN => False
  | NInf, _ | _, PInf => True
  | Fin a, Fin b => a <= b
  | _, _ => False
  end.

(** [x < y] *)
Definition lt (x y : pyfloat) : Prop :=
  match x, y with
  | NaN, _ | _, NaN => False
  | Fin a, Fin b => a < b
  | NInf, NInf | PInf, PInf => False
  | NInf, _ | _, PInf => True
  | _, _ => False
  end.

(** Nearest integer to [q], ties to the even one. *)
Definition round_half_even (q : Q) : Z :=
  let f := Qfloor q in
  let d := q - inject_Z f in
  match Qcompare d (1 # 2) with
  | Lt => f
  | Gt => (f + 1)%Z
  | Eq => if Z.even f then f else (f + 1)%Z
  end.

(** [round(x, 2)]: infinities and NaN round to themselves, a finite value
    to the nearest multiple of 1/100. *)
Definition round2 (x : pyfloat) : pyfloat :=
  match x with
  | Fin q => Fin (round_half_even (q * 100) # 100)
  | _ => x
  end.

End PyFloat.

(** ** [float(text)] *)

(** The conversion follows CPython: the text is brought to ASCII, the
    underscores that may separate digits are checked and dropped, the
    surrounding blanks are stripped, and what remains must be, in full, a
    decimal literal or a spelling of infinity or NaN. *)
Module FloatText.

Import PyStr.

Definition is_digit (c : ascii) : bool :=
  (48 <=? code c) && (code c <=? 57).

Definition digit_val (c : ascii) : Z := code c - 48.

(** C's [isspace] in the C locale *)
Definition is_c_space (c : ascii) : bool :=
  ((9 <=? code c) && (code c <=? 13)) || (code c =? 32).

Definition lower (c : ascii) : ascii :=
  if (65 <=? code c) && (code c <=? 90)
  then ascii_of_N (N_of_ascii c + 32)
  else c.

(** Non-ASCII blanks become a space; any other non-ASCII character ends
    the text with a question mark (there is no decimal digit among the
    code points 128 to 255).  ASCII text is left as it is. *)
Fixpoint transform_chars (s : list ascii) : list ascii :=
  match s with
  | [] => []
  | c :: r =>
      if code c <? 127 then c :: transform_chars r
      else if is_space c then " "%char :: transform_chars r
      else ["?"%char]
  end.

Definition transform (s : list ascii) : list ascii :=
  if forallb (fun c => code c <? 128) s then s else transform_chars s.

(** An underscore is allowed only between two digits; [prev] is the
    character before [s]. *)
Fixpoint drop_underscores (prev : ascii) (s : list ascii) : option (list ascii) :=
  match s with
  | [] => if Ascii.eqb prev "_" then None else Some []
  | c :: r =>
      if Ascii.eqb c "_" then
        if is_digit prev then drop_underscores c r else None
      else if Ascii.eqb prev "_" && negb (is_digit c) then None
      else option_map (cons c) (drop_underscores c r)
  end.

Definition take_sign (s : list ascii) : bool * list ascii :=
  match s with
  | c :: r =>
      if Ascii.eqb c "-" then (true, r)
      else if Ascii.eqb c "+" then (false, r)
      else (false, s)
  | [] => (false, [])
  end.

Fixpoint span_digits (s : list ascii) : list ascii * list ascii :=
  match s with
  | c :: r =>
      if is_digit c
      then let (ds, rest) := span_digits r in (c :: ds, rest)
      else ([], s)
  | [] => ([], [])
  end.

Definition digits_value (ds : list ascii) : Z :=
  fold_left (fun acc c => 10 * acc + digit_val c) ds 0.

(** [m * 10^e] as a rational *)
Definition scale (m e : Z) : Q :=
  if 0 <=? e then inject_Z (m * 10 ^ e) else Qmake m (Z.to_pos (10 ^ (- e))).

Definition signed (neg : bool) (m : Z) : Z := if neg then - m else m.

(** The decimal literal at the head of [s], with the text left over;
    [None] when [s] does not start with one.  An exponent mark that no
    digit follows is not part of the literal. *)
Definition strtod (s : list ascii) : option (Q * list ascii) :=
  let (neg, s1) := take_sign s in
  let (ip, s2) := span_digits s1 in
  let (fp, s3) :=
    match s2 with
    | c :: r => if Ascii.eqb c "." then span_digits r else ([], s2)
    | [] => ([], [])
    end in
  match ip ++ fp with
  | [] => None
  | ds =>
      let m := signed neg (digits_value ds) in
      let nfrac := Z.of_nat (length fp) in
      match s3 with
      | c :: r =>
          if Ascii.eqb (lower c) "e" then
            let (eneg, r1) := take_sign r in
            let (ed, r2) := span_digits r1 in
            match ed with
            | [] => Some (scale m (- nfrac), s3)
            | _ => Some (scale m (signed eneg (digits_value ed) - nfrac), r2)
            end
          else Some (scale m (- nfrac), s3)
      | [] => Some (scale m (- nfrac), [])
      end
  end.

(** [pre] matches the head of [s] without regard to case. *)
Fixpoint match_nocase (pre s : list ascii) : option (list ascii) :=
  match pre, s with
  | [], _ => Some s
  | p :: pre', c :: r => if Ascii.eqb p (lower c) then match_nocase pre' r else None
  | _ :: _, [] => None
  end.

Definition parse_inf_or_nan (s : list ascii) : option (pyfloat * list ascii) :=
  let (neg, s1) := take_sign s in
  match match_nocase (chars "inf") s1 with
  | Some r =>
      let r' := match match_nocase (chars "inity") r with
                | Some r2 => r2
                | None => r
                end in
      Some (if neg then NInf else PInf, r')
  | None =>
      match match_nocase (chars "nan") s1 with
      | Some r => Some (NaN, r)
      | None => None
      end
  end.

(** The whole of [s] as a number *)
Definition string_to_double (s : list ascii) : option pyfloat :=
  match strtod s with
  | Some (q, []) => Some (Fin q)
  | Some (_, _ :: _) => None
  | None =>
      match parse_inf_or_nan s with
      | Some (x, []) => Some x
      | _ => None
      end
  end.

Definition float_from_string_inner (s : list ascii) : option pyfloat :=
  match lstrip_by is_c_space s with
  | [] => None
  | s1 => string_to_double (rstrip_by is_c_space s1)
  end.

Definition parse (s : string) : option pyfloat :=
  let t := transform (chars s) in
  if existsb (Ascii.eqb "_") t then
    match drop_underscores "000" t with
    | Some t' => float_from_string_inner t'
    | None => None
    end
  else float_from_string_inner t.

End FloatText.

(** [float(s)] for a [str] argument: the value, or [ValueError]. *)
Definition py_float (s : string) : outcome pyfloat :=
  match FloatText.parse s with
  | Some x => Return x
  | None => Raise (Exn ValueError ("could not convert string to float: '" ++ s ++ "'"))
  end.

(** [float] on some texts: what it reads and what it refuses *)
Example py_float_reads :
  py_float "450" = Return (Fin 450) /\
  py_float " 1_000.5e-1 " = Return (Fin (10005 # 100)) /\
  py_float ".5" = Return (Fin (5 # 10)) /\
  py_float "1." = Return (Fin 1) /\
  py_float "-Infinity" = Return NInf /\
  py_float "nAn" = Return NaN.
Proof. repeat split; reflexivity. Qed.

Example py_float_refuses :
  FloatText.parse "N/A" = None /\
  FloatText.parse "" = None /\
  FloatText.parse "." = None /\
  FloatText.parse "1e" = None /\
  FloatText.parse "1__0" = None /\
  FloatText.parse "_1" = None /\
  FloatText.parse "infin" = None.
Proof. repeat split; reflexivity. Qed.

(** ** Dates: [datetime], [timedelta(days=n)], [strftime("%Y-%m")] *)

(** The proleptic Gregorian calendar as Python's [datetime] module
    computes it: days are numbered from 1 (1 January of year 1) to
    [MAXORDINAL] (31 December 9999). *)
Module Calendar.

Record datetime := DateTime {
  year : Z;
  month : Z;
  day : Z;
  hour : Z;
  minute : Z;
  second : Z;
  microsecond : Z
}.

Definition MAXORDINAL : Z := 3652059.

Definition is_leap (y : Z) : bool :=
  (y mod 4 =? 0) && (negb (y mod 100 =? 0) || (y mod 400 =? 0)).

Definition days_before_year (y : Z) : Z :=
  let y := y - 1 in
  y * 365 + y / 4 - y / 100 + y / 400.

Definition DAYS_IN_MONTH (m : Z) : Z :=
  match m with
  | 1 => 31 | 2 => 28 | 3 => 31 | 4 => 30 | 5 => 31 | 6 => 30
  | 7 => 31 | 8 => 31 | 9 => 30 | 10 => 31 | 11 => 30 | 12 => 31
  | _ => -1
  end.

Definition DAYS_BEFORE_MONTH (m : Z) : Z :=
  match m with
  | 1 => 0 | 2 => 31 | 3 => 59 | 4 => 90 | 5 => 120 | 6 => 151
  | 7 => 181 | 8 => 212 | 9 => 243 | 10 => 273 | 11 => 304 | 12 => 334
  | _ => -1
  end.

Definition days_in_month (y m : Z) : Z :=
  if (m =? 2) && is_leap y then 29 else DAYS_IN_MONTH m.

Definition days_before_month (y m : Z) : Z :=
  DAYS_BEFORE_MONTH m + (if (2 <? m) && is_leap y then 1 else 0).

(** [_ymd2ord] *)
Definition ymd2ord (y m d : Z) : Z :=
  days_before_year y + days_before_month y m + d.

Definition DI400Y : Z := 146097.
Definition DI100Y : Z := 36524.
Definition DI4Y : Z := 1461.

(** [_ord2ymd] *)
Definition ord2ymd (n : Z) : Z * Z * Z :=
  let n := n - 1 in
  let n400 := n / DI400Y in
  let n := n mod DI400Y in
  let y := n400 * 400 + 1 in
  let n100 := n / DI100Y in
  let n := n mod DI100Y in
  let n4 := n / DI4Y in
  let n := n mod DI4Y in
  let n1 := n / 365 in
  let n := n mod 365 in
  let y := y + n100 * 100 + n4 * 4 + n1 in
  if (n1 =? 4) || (n100 =? 4) then (y - 1, 12, 31)
  else
    let leapyear := (n1 =? 3) && (negb (n4 =? 24) || (n100 =? 3)) in
    let m := Z.shiftr (n + 50) 5 in
    let preceding := DAYS_BEFORE_MONTH m + (if (2 <? m) && leapyear then 1 else 0) in
    if n <? preceding then
      let m := m - 1 in
      let preceding :=
        preceding - (DAYS_IN_MONTH m + (if (m =? 2) && leapyear then 1 else 0)) in
      (y, m, n - preceding + 1)
    else (y, m, n - preceding + 1).

Definition toordinal (t : datetime) : Z :=
  ymd2ord (year t) (month t) (day t).

(** [t - timedelta(days=n)]: the time of day is kept; a result outside
    years 1 to 9999 is an [OverflowError]. *)
Definition sub_days (t : datetime) (n : Z) : outcome datetime :=
  let o := toordinal t - n in
  if (0 <? o) && (o <=? MAXORDINAL) then
    let '(y, m, d) := ord2ymd o in
    Return (DateTime y m d (hour t) (minute t) (second t) (microsecond t))
  else Raise (Exn OverflowError "date value out of range").

(** Decimal digits of [n], least significant last, padded with zeros to
    [width] characters; [n] is taken modulo [10^width]. *)
Fixpoint zero_padded (width : nat) (n : Z) : list ascii :=
  match width with
  | O => []
  | S w => zero_padded w (n / 10) ++ [ascii_of_N (Z.to_N (48 + n mod 10))]
  end.

(** [t.strftime("%Y-%m")]: the year in four digits and the month in
    two.  (Below the year 1000 C libraries differ on the leading zeros of
    [%Y]; the properties proved here are about later years.) *)
Definition strftime_Y_m (t : datetime) : string :=
  PyStr.text (zero_padded 4 (year t) ++ ["-"%char] ++ zero_padded 2 (month t)).

End Calendar.

(** Ordinals and dates at the ends of the calendar and around a leap day *)
Example ordinals :
  Calendar.ord2ymd 1 = (1, 1, 1) /\
  Calendar.ord2ymd 3652059 = (9999, 12, 31) /\
  Calendar.ymd2ord 2024 2 29 = 738945 /\
  Calendar.ord2ymd 738945 = (2024, 2, 29) /\
  Calendar.ord2ymd (Calendar.ymd2ord 2024 1 31 - 30) = (2024, 1, 1).
Proof. repeat split; reflexivity. Qed.

(** ** The world outside the program *)

Import Calendar.

(** Selenium locators and wait conditions *)
Inductive locator :=
| By_ID (id : string)
| By_XPATH (path : string).

Inductive condition :=
| element_to_be_clickable (loc : locator)
| presence_of_element_located (loc : locator)
| url_contains (part : string).

Inductive keys :=
| Char (c : ascii)
| Keys_RETURN.

(** The calls that can fail, indexed by what they return. *)
Inductive call : Type -> Type :=
| chromedriver_install : call unit
| webdriver_Chrome (arguments : list string) (experimental : list (string * string)) : call unit
| execute_script (script : string) : call unit
| driver_get (url : string) : call unit
| wait_until (timeout : Z) (cond : condition) : call unit
| find_element (loc : locator) : call unit
| element_clear (loc : locator) : call unit
| element_send_keys (loc : locator) (k : keys) : call unit
| element_text (loc : locator) : call string
| driver_current_url : call string
| driver_quit : call unit
| input (prompt : string) : call string
| open_file (path mode encoding : string) : call unit
| json_dump (data : gmap string pyfloat) (indent : Z) : call unit
| file_close : call unit.

Inductive level := INFO | WARNING | ERROR.

(** What the log records, in the order it happened. *)
Inductive event :=
| Called {A : Type} (c : call A)
| Drew (a b r : Q)
| Clock (t : datetime)
| Slept (seconds : Q)
| Logged (l : level) (msg : string)
| Printed (line : string).

(** An environment answers the program's calls.  Browser, console and
    file-system calls return or raise; [random.uniform] and
    [datetime.now] always return. *)
Class Env (S : Type) := {
  respond : forall A, call A -> S -> outcome A * S;
  random_uniform : Q -> Q -> S -> Q * S;
  datetime_now : S -> datetime * S
}.

Record world (S : Type) := World {
  env : S;
  self_driver : bool;      (* [self.driver is not None] *)
  log : list event
}.
Arguments World {S} env self_driver log.
Arguments env {S} w.
Arguments self_driver {S} w.
Arguments log {S} w.

(** ** The price text as a number *)

(** Lines 116 to 120 of [get_median_sale_prices]: the currency sign and
    the thousands separators are dropped; when a [K] is left anywhere in
    the text every [K] is dropped and the number read is multiplied by
    1000. *)
Definition convert_price_text (price_text : string) : outcome pyfloat :=
  let price_value := PyStr.remove_char "," (PyStr.remove_char "$" price_text) in
  if PyStr.contains "K" price_value then
    match py_float (PyStr.remove_char "K" price_value) with
    | Return x => Return (PyFloat.mul x (Fin 1000))
    | Raise e => Raise e
    end
  else py_float price_value.

(** ** Console output of [main] *)

Module Console.

(** Digits in groups of three from the right, separated by commas *)
Fixpoint group3 (rev_digits : list ascii) : list ascii :=
  match rev_digits with
  | a :: b :: c :: ((_ :: _) as rest) => a :: b :: c :: ","%char :: group3 rest
  | _ => rev_digits
  end.

Definition grouped (n : Z) : string :=
  PyStr.text (rev (group3 (rev (PyStr.chars (pretty n))))).

(** ["{:,.2f}".format(x)] *)
Definition format_2f (x : pyfloat) : string :=
  match x with
  | Fin q =>
      let n := Z.abs (PyFloat.round_half_even (q * 100)) in
      let sign := if Qnum q <? 0 then "-"%string else ""%string in
      let cents := PyStr.text (Calendar.zero_padded 2 (n mod 100)) in
      (sign ++ grouped (n / 100) ++ "." ++ cents)%string
  | PInf => "inf"%string
  | NInf => "-inf"%string
  | NaN => "nan"%string
  end.

(** [sorted(prices.items())]: the keys of a [dict] are distinct, so the
    pairs are ordered by key. *)
Fixpoint insert_sorted (kv : string * pyfloat) (l : list (string * pyfloat)) :=
  match l with
  | [] => [kv]
  | kv' :: r =>
      if String.leb (fst kv) (fst kv') then kv :: l else kv' :: insert_sorted kv r
  end.

Definition sorted_items (prices : gmap string pyfloat) : list (string * pyfloat) :=
  foldr insert_sorted [] (map_to_list prices).

End Console.

(** ** The program monad: state, log and exceptions *)

Section Program.

Context {S : Type} `{Env S}.

Definition M (A : Type) : Type := world S -> outcome A * world S.

#[global] Instance M_ret : MRet M := fun A a w => (Return a, w).

#[global] Instance M_bind : MBind M := fun A B f m w =>
  match m w with
  | (Return a, w') => f a w'
  | (Raise e, w') => (Raise e, w')
  end.

Definition raise {A} (e : exn) : M A := fun w => (Raise e, w).

Definition record (ev : event) (w : world S) : world S :=
  World (env w) (self_driver w) (log w ++ [ev]).

(** A call that may fail *)
Definition perform {A} (c : call A) : M A := fun w =>
  let (r, s') := respond A c (env w) in
  (r, World s' (self_driver w) (log w ++ [Called c])).

(** [random.uniform(a, b)] *)
Definition uniform (a b : Q) : M Q := fun w =>
  let (r, s') := random_uniform a b (env w) in
  (Return r, World s' (self_driver w) (log w ++ [Drew a b r])).

(** [datetime.now()] *)
Definition now : M datetime := fun w =>
  let (t, s') := datetime_now (env w) in
  (Return t, World s' (self_driver w) (log w ++ [Clock t])).

Definition emit (ev : event) : M unit := fun w => (Return tt, record ev w).

Definition sleep (seconds : Q) : M unit := emit (Slept seconds).
Definition logger (l : level) (msg : string) : M unit := emit (Logged l msg).
Definition print (line : string) : M unit := emit (Printed line).

Definition get_self_driver : M bool := fun w => (Return (self_driver w), w).
Definition set_self_driver (b : bool) : M unit := fun w =>
  (Return tt, World (env w) b (log w)).

(** [try: body except ...: handler]; [handler e] is [None] when no
    [except] clause matches [e]. *)
Definition try_except {A} (body : M A) (handler : exn -> option (M A)) : M A :=
  fun w =>
    match body w with
    | (Return a, w') => (Return a, w')
    | (Raise e, w') =>
        match handler e with
        | Some h => h w'
        | None => (Raise e, w')
        end
    end.

(** [try: body finally: final] *)
Definition try_finally {A} (body : M A) (final : M unit) : M A :=
  fun w =>
    let (r, w') := body w in
    match final w' with
    | (Return _, w'') => (r, w'')
    | (Raise e, w'') => (Raise e, w'')
    end.

(** [except Exception as e: h e] *)
Definition except_Exception {A} (h : exn -> M A) (e : exn) : option (M A) :=
  if is_Exception e then Some (h e) else None.

(** A [for] loop over [xs] whose body may leave the function with
    [return]: the body yields [Some r] for [return r]. *)
Fixpoint for_each {A R} (xs : list A) (body : A -> M (option R)) (after : M R) : M R :=
  match xs with
  | [] => after
  | x :: rest =>
      r ← body x;
      match r with
      | Some v => mret v
      | None => for_each rest body after
      end
  end.

(** A [for] loop run for its effects only *)
Fixpoint for_do {A} (xs : list A) (body : A -> M unit) : M unit :=
  match xs with
  | [] => mret tt
  | x :: rest => body x;; for_do rest body
  end.

(** *** [RedfinScraper.setup_selenium] and [__init__] *)

Definition chrome_arguments : list string :=
  [ "--disable-gpu"; "--no-sandbox"; "--disable-dev-shm-usage";
    "--window-size=1920,1080";
    "--disable-blink-features=AutomationControlled";
    "user-agent=Mozilla/5.0 (Windows NT 10.0; Win64; x64) AppleWebKit/537.36 (KHTML, like Gecko) Chrome/120.0.0.0 Safari/537.36" ]%string.

(** The experimental options, each with its value as Python writes it *)
Definition chrome_experimental_options : list (string * string) :=
  [ ("useAutomationExtension", "False");
    ("excludeSwitches", "['enable-automation']") ]%string.

Definition setup_selenium : M unit :=
  try_except
    (perform chromedriver_install;;
     perform (webdriver_Chrome chrome_arguments chrome_experimental_options);;
     set_self_driver true;;
     perform (execute_script
       "Object.defineProperty(navigator, 'webdriver', {get: () => undefined})");;
     logger INFO "Selenium WebDriver setup completed successfully.")
    (except_Exception (fun e =>
       logger ERROR ("Error setting up Selenium: " ++ exn_msg e);;
       raise e)).

Definition init : M unit :=
  set_self_driver false;;
  setup_selenium.

(** *** [RedfinScraper.navigate_to_city] *)

Definition search_box : locator := By_ID "search-box-input".

Definition navigate_attempt (city state : string) : M bool :=
  perform (driver_get "https://www.redfin.com");;
  perform (wait_until 10 (element_to_be_clickable search_box));;
  perform (find_element search_box);;
  perform (element_clear search_box);;
  let search_query := (city ++ ", " ++ state)%string in
  for_do (PyStr.chars search_query) (fun char =>
    perform (element_send_keys search_box (Char char));;
    d ← uniform (1 # 10) (2 # 10);
    sleep d);;
  perform (element_send_keys search_box Keys_RETURN);;
  perform (wait_until 10 (url_contains "/city/"));;
  current_url ← perform driver_current_url;
  perform (driver_get (PyStr.rstrip_char "/" current_url ++ "/housing-market"));;
  mret true.

Definition navigate_to_city (city state : string) : M bool :=
  for_each (seqZ 0 3)
    (fun attempt =>
       try_except
         (r ← navigate_attempt city state; mret (Some r))
         (except_Exception (fun e =>
            logger WARNING
              ("Navigation retry " ++ pretty (attempt + 1) ++ " failed: " ++ exn_msg e);;
            sleep 2;;
            mret None)))
    (logger ERROR "Failed to navigate to the city after 3 attempts.";;
     mret false).

(** *** [RedfinScraper.get_median_sale_prices] *)

Definition lift {A} (r : outcome A) : M A := fun w => (r, w).

Definition price_xpath : locator :=
  By_XPATH "/html/body/div[1]/div[6]/div[4]/div/div[2]/div/div/div[1]/div[6]/div/div[1]/div[2]/div[1]/div[2]".

(** One iteration of the loop of lines 126 to 130 *)
Definition series_step (current_price : pyfloat) (current_date : datetime)
    (monthly_data : gmap string pyfloat) (i : Z) : M (gmap string pyfloat) :=
  d ← lift (sub_days current_date (30 * i));
  let date_key := strftime_Y_m d in
  variation ← uniform (- (2 # 100)) (2 # 100);
  let monthly_price := PyFloat.mul current_price (PyFloat.add (Fin 1) (Fin variation)) in
  mret (<[date_key := PyFloat.round2 monthly_price]> monthly_data).

Fixpoint series_loop (current_price : pyfloat) (current_date : datetime)
    (indices : list Z) (monthly_data : gmap string pyfloat) : M (gmap string pyfloat) :=
  match indices with
  | [] => mret monthly_data
  | i :: rest =>
      monthly_data' ← series_step current_price current_date monthly_data i;
      series_loop current_price current_date rest monthly_data'
  end.

(** Lines 122 to 132: 36 months of synthetic data around [current_price] *)
Definition generate_series (current_price : pyfloat) : M (gmap string pyfloat) :=
  current_date ← now;
  series_loop current_price current_date (seqZ 0 36) ∅.

Definition navigation_error (city state : string) : exn :=
  Exn ValueError ("Could not navigate to " ++ city ++ ", " ++ state ++ " housing market page.").

Definition get_median_sale_prices (state city : string) : M (gmap string pyfloat) :=
  try_except
    (ok ← navigate_to_city city state;
     (if negb ok then raise (navigation_error city state) else mret tt);;
     perform (wait_until 20 (presence_of_element_located price_xpath));;
     raw ← perform (element_text price_xpath);
     let price_text := PyStr.strip raw in
     logger INFO ("Found current price: " ++ price_text);;
     current_price ← lift (convert_price_text price_text);
     generate_series current_price)
    (fun e : exn =>
       if is_ValueError e then
         Some (logger ERROR ("ValueError in get_median_sale_prices: " ++ exn_msg e);;
               raise e)
       else
         except_Exception (fun e =>
           logger ERROR ("Error in get_median_sale_prices: " ++ exn_msg e);;
           raise e) e).

(** *** [RedfinScraper.__del__] *)

Definition del : M unit :=
  try_except
    (get_self_driver ≫= fun d : bool =>
     if d then
       perform driver_quit;;
       logger INFO "Browser closed successfully in destructor."
     else mret tt)
    (except_Exception (fun e =>
       logger ERROR ("Error closing browser in destructor: " ++ exn_msg e))).

(** *** [main] *)

Definition newline : string := String "010" "".

(** The [try] block of [main] *)
Definition main_try : M unit :=
  state ← perform (input "state: ");
  city ← perform (input "city: ");
  prices ← get_median_sale_prices state city;
  print (newline ++ "Median Sale Prices for " ++ city ++ ", " ++ state ++ ":");;
  for_do (Console.sorted_items prices) (fun '(date_key, price) =>
    let formatted_price := ("$" ++ Console.format_2f price)%string in
    print (date_key ++ ": " ++ formatted_price));;
  perform (open_file "median_prices.json" "w" "utf-8");;
  try_finally (perform (json_dump prices 2)) (perform file_close);;
  print (newline ++ "Results saved to 'median_prices.json'").

(** The [finally] block of [main] *)
Definition main_finally : M unit :=
  try_except
    (get_self_driver ≫= fun d : bool =>
     if d then perform driver_quit else mret tt)
    (except_Exception (fun _ => mret tt)).

Definition main : M unit :=
  init;;
  try_finally
    (try_except main_try
       (except_Exception (fun e => print ("Error in main: " ++ exn_msg e))))
    main_finally.

(** The interpreter runs [__del__] when the scraper object, a local of
    [main], is released; whatever [__del__] raises is discarded. *)
Definition run : M unit := fun w =>
  let (r, w1) := main w in
  let (_, w2) := del w1 in
  (r, w2).

End Program.

(** ** A scripted environment *)

(** A fake browser, console and clock for closed examples: every wait
    times out unless [page_ok]; the price element shows [price_shown];
    the random source hands out [draws] in order, then zeros; the clock
    stands at [clock]; [waits] counts the waits asked for. *)
Module Fake.

Record t := Make {
  page_ok : bool;
  price_shown : string;
  clock : datetime;
  draws : list Q;
  waits : nat
}.

Definition timeout : exn := Exn TimeoutException "Message: ".

Definition answer (A : Type) (c : call A) (s : t) : outcome A * t :=
  match c in call A return outcome A * t with
  | wait_until _ _ =>
      (if page_ok s then Return tt else Raise timeout,
       Make (page_ok s) (price_shown s) (clock s) (draws s) (Datatypes.S (waits s)))
  | element_text _ => (Return (price_shown s), s)
  | driver_current_url => (Return "https://www.redfin.com/city/30818/TX/Austin/"%string, s)
  | input prompt =>
      (Return (if String.eqb prompt "state: " then "TX" else "Austin")%string, s)
  | chromedriver_install => (Return tt, s)
  | webdriver_Chrome _ _ => (Return tt, s)
  | execute_script _ => (Return tt, s)
  | driver_get _ => (Return tt, s)
  | find_element _ => (Return tt, s)
  | element_clear _ => (Return tt, s)
  | element_send_keys _ _ => (Return tt, s)
  | driver_quit => (Return tt, s)
  | open_file _ _ _ => (Return tt, s)
  | json_dump _ _ => (Return tt, s)
  | file_close => (Return tt, s)
  end.

Definition draw (a b : Q) (s : t) : Q * t :=
  match draws s with
  | r :: rest => (r, Make (page_ok s) (price_shown s) (clock s) rest (waits s))
  | [] => (0%Q, s)
  end.

#[export] Instance fake_env : Env t := {
  respond := answer;
  random_uniform := draw;
  datetime_now := fun s => (clock s, s)
}.

Definition start (s : t) : world t := World s false [].

End Fake.

(** ** A counting fake whose waits always time out *)

(** The state counts the waits asked for; every other call returns at
    once (a text result is empty). *)
Module CountingFake.

Definition answer (A : Type) (c : call A) (n : nat) : outcome A * nat :=
  match c in call A return outcome A * nat with
  | wait_until _ _ => (Raise Fake.timeout, Datatypes.S n)
  | element_text _ => (Return ""%string, n)
  | driver_current_url => (Return ""%string, n)
  | input _ => (Return ""%string, n)
  | chromedriver_install => (Return tt, n)
  | webdriver_Chrome _ _ => (Return tt, n)
  | execute_script _ => (Return tt, n)
  | driver_get _ => (Return tt, n)
  | find_element _ => (Return tt, n)
  | element_clear _ => (Return tt, n)
  | element_send_keys _ _ => (Return tt, n)
  | driver_quit => (Return tt, n)
  | open_file _ _ _ => (Return tt, n)
  | json_dump _ _ => (Return tt, n)
  | file_close => (Return tt, n)
  end.

#[export] Instance counting_env : Env nat := {
  respond := answer;
  random_uniform := fun _ _ n => (0%Q, n);
  datetime_now := fun n => (DateTime 2024 6 15 9 30 0 0, n)
}.

End CountingFake.

(** ** A session where every call returns *)

(** The state counts the calls answered.  The price element shows
    "$450K", the address bar the city's page, the console the state TX and
    the city Austin; [random.uniform(a, b)] answers [a]. *)
Module Steady.

Record t := Answered { answered : nat }.

Definition next (s : t) : t := Answered (Datatypes.S (answered s)).

Definition answer (A : Type) (c : call A) (s : t) : outcome A * t :=
  match c in call A return outcome A * t with
  | element_text _ => (Return "$450K"%string, next s)
  | driver_current_url =>
      (Return "https://www.redfin.com/city/30818/TX/Austin/"%string, next s)
  | input prompt =>
      (Return (if String.eqb prompt "state: " then "TX" else "Austin")%string,
       next s)
  | wait_until _ _ => (Return tt, next s)
  | chromedriver_install => (Return tt, next s)
  | webdriver_Chrome _ _ => (Return tt, next s)
  | execute_script _ => (Return tt, next s)
  | driver_get _ => (Return tt, next s)
  | find_element _ => (Return tt, next s)
  | element_clear _ => (Return tt, next s)
  | element_send_keys _ _ => (Return tt, next s)
  | driver_quit => (Return tt, next s)
  | open_file _ _ _ => (Return tt, next s)
  | json_dump _ _ => (Return tt, next s)
  | file_close => (Return tt, next s)
  end.

#[export] Instance steady_env : Env t := {
  respond := answer;
  random_uniform := fun a _ s => (a, s);
  datetime_now := fun s => (DateTime 2024 6 15 9 30 0 0, s)
}.

Definition start : world t := World (Answered 0) false [].

End Steady.

(** ** A session that breaks down *)

(** The first [calls_left] calls are answered as by the steady session;
    every later call raises [WebDriverException]. *)
Module Breaking.

Record t := Left { calls_left : nat }.

Definition crash : exn := Exn WebDriverException "Message: chrome not reachable".

Definition answer (A : Type) (c : call A) (s : t) : outcome A * t :=
  match calls_left s with
  | O => (Raise crash, s)
  | Datatypes.S k => ((Steady.answer A c (Steady.Answered 0)).1, Left k)
  end.

#[export] Instance breaking_env : Env t := {
  respond := answer;
  random_uniform := fun a _ s => (a, s);
  datetime_now := fun s => (DateTime 2024 6 15 9 30 0 0, s)
}.

Definition start (n : nat) : world t := World (Left n) false [].

End Breaking.

(** * Vocabulary of the properties *)

Section Vocabulary.

Context {S : Type} `{Env S}.

(** ** The series: dates, keys, draws and stored values *)

(** The next [n] answers of [random.uniform(a, b)] from state [s] *)
Fixpoint draw_seq (a b : Q) (n : nat) (s : S) : list Q * S :=
  match n with
  | O => ([], s)
  | Datatypes.S n' =>
      let (r, s') := random_uniform a b s in
      let (rs, s'') := draw_seq a b n' s' in
      (r :: rs, s'')
  end.

(** The first day of the year 1000: from there on a year has four digits. *)
Definition FIRST_4DIGIT : Z := Eval cbv in ymd2ord 1000 1 1.

(** Iteration [i] can take [30 * i] days off [t] and lands in a year of
    four digits. *)
Definition date_ok (t : datetime) (i : Z) : Prop :=
  FIRST_4DIGIT <= toordinal t - 30 * i <= MAXORDINAL.

(** The key of iteration [i] *)
Definition date_key (t : datetime) (i : Z) : string :=
  match sub_days t (30 * i) with
  | Return d => strftime_Y_m d
  | Raise _ => ""
  end.

(** The value stored for the draw [r] *)
Definition monthly_value (current_price : pyfloat) (r : Q) : pyfloat :=
  PyFloat.round2 (PyFloat.mul current_price (PyFloat.add (Fin 1) (Fin r))).

(** [monthly_data[date_key] = round(monthly_price, 2)] for iteration
    [ir.1] with the draw [ir.2] *)
Definition store (current_price : pyfloat) (t : datetime)
    (m : gmap string pyfloat) (ir : Z * Q) : gmap string pyfloat :=
  <[date_key t ir.1 := monthly_value current_price ir.2]> m.

(** The log entry of [random.uniform(-0.02, 0.02)] answering [r] *)
Definition drew (r : Q) : event := Drew (- (2 # 100)) (2 # 100) r.

(** All 36 iterations can take their days off [t] and land in years of
    four digits. *)
Definition anchor_ok (t : datetime) : Prop :=
  FIRST_4DIGIT + 30 * 35 <= toordinal t <= MAXORDINAL.

(** The draw is within two percent. *)
Definition variation_ok (r : Q) : Prop :=
  (- (2 # 100) <= r <= 2 # 100)%Q.

(** The clock reading of [generate_series] started in [w], and the 36
    draws that follow it *)
Definition anchor_of (w : world S) : datetime := (datetime_now (env w)).1.

Definition draws_of (w : world S) : list Q :=
  (draw_seq (- (2 # 100)) (2 # 100) 36 (datetime_now (env w)).2).1.

(** [s] is four digits, a hyphen and two digits. *)
Definition matches_YYYY_MM (s : string) : bool :=
  match PyStr.chars s with
  | [y1; y2; y3; y4; h; m1; m2] =>
      forallb FloatText.is_digit [y1; y2; y3; y4; m1; m2] && Ascii.eqb h "-"
  | _ => false
  end.

(** [variation_ok], computed *)
Definition variation_okb (r : Q) : bool :=
  Qle_bool (- (2 # 100)) r && Qle_bool r (2 # 100).

(** The value a run that returned a mapping left under [key] *)
Definition stored_under (key : string) (o : outcome (gmap string pyfloat)) : option pyfloat :=
  match o with
  | Return m => m !! key
  | Raise _ => None
  end.

(** ** The price text *)

(** What is left of the text once the currency sign, the separators and
    the thousands marker are gone *)
Definition bare_number (s : string) : string :=
  PyStr.remove_char "K" (PyStr.remove_char "," (PyStr.remove_char "$" s)).

(** [x * 1000] for the number read, or the parse error *)
Definition in_thousands (r : outcome pyfloat) : outcome pyfloat :=
  match r with
  | Return x => Return (PyFloat.mul x (Fin 1000))
  | Raise e => Raise e
  end.

(** ** The log: which calls were made *)

(** [quiet ok m]: running [m] leaves [self.driver] as it was and adds to
    the log only calls that [ok] allows (draws, clock readings, sleeps,
    log lines and printed lines are always allowed). *)
Section Allowed.

Variable ok : forall A, call A -> bool.

Definition allowed (ev : event) : bool :=
  match ev with
  | Called c => ok _ c
  | _ => true
  end.

Definition extends (w w' : world S) : Prop :=
  self_driver w' = self_driver w /\
  exists evs, log w' = log w ++ evs /\ forallb allowed evs = true.

Definition quiet {A} (m : M A) : Prop := forall w, extends w (m w).2.

End Allowed.

(** Calls to the browser and the console, short of ending the session *)
Definition session_only (A : Type) (c : call A) : bool :=
  match c with
  | driver_quit | open_file _ _ _ | json_dump _ _ | file_close => false
  | _ => true
  end.

(** Any call but [driver.quit()] *)
Definition not_quit (A : Type) (c : call A) : bool :=
  match c with
  | driver_quit => false
  | _ => true
  end.

(** The event is a call of [driver.quit()]. *)
Definition is_quit (ev : event) : bool := negb (allowed not_quit ev).

(** [open], [json.dump] and the closing of the file *)
Definition is_file_call (A : Type) (c : call A) : bool :=
  match c with
  | open_file _ _ _ | json_dump _ _ | file_close => true
  | _ => false
  end.

Definition is_file_event (ev : event) : bool :=
  match ev with
  | Called c => is_file_call _ c
  | _ => false
  end.

(** How often [driver.quit()] was called, and the file operations, in a
    stretch of the log *)
Definition quits (l : list event) : nat := length (List.filter is_quit l).
Definition file_events (l : list event) : list event := List.filter is_file_event l.

(** The event is a load of the site's root page. *)
Definition is_site_load (ev : event) : bool :=
  match ev with
  | Called c =>
      match c with
      | driver_get url => String.eqb url "https://www.redfin.com"
      | _ => false
      end
  | _ => false
  end.

(** The attempts made in a stretch of the log: each starts by loading the
    site's root page. *)
Definition attempts (l : list event) : nat := length (List.filter is_site_load l).

(** Any call but a file operation *)
Definition not_file (A : Type) (c : call A) : bool := negb (is_file_call A c).

(** The [try] block of [main] under its [except] clause *)
Definition main_guarded : M unit :=
  try_except main_try
    (except_Exception (fun e => print ("Error in main: " ++ exn_msg e))).

(** [open('median_prices.json', 'w', encoding='utf-8')] *)
Definition open_median_prices : call unit :=
  open_file "median_prices.json" "w" "utf-8".

(** The file operations of a run that has its prices: the file is
    opened, and once it is open the mapping is dumped with indent 2 and
    the file closed. *)
Definition save_events (prices : gmap string pyfloat) (s : S) : list event :=
  Called open_median_prices ::
  match (respond unit open_median_prices s).1 with
  | Return _ => [Called (json_dump prices 2); Called file_close]
  | Raise _ => []
  end.

(** The lines of [main_try] after the prices are in hand *)
Definition report_and_save (state city : string) (prices : gmap string pyfloat) : M unit :=
  print (newline ++ "Median Sale Prices for " ++ city ++ ", " ++ state ++ ":");;
  for_do (Console.sorted_items prices) (fun '(date_key, price) =>
    let formatted_price := ("$" ++ Console.format_2f price)%string in
    print (date_key ++ ": " ++ formatted_price));;
  perform open_median_prices;;
  try_finally (perform (json_dump prices 2)) (perform file_close);;
  print (newline ++ "Results saved to 'median_prices.json'").

(** ** What a piece of the program raises and returns *)

(** Whatever [m] raises satisfies [p]. *)
Definition raises_only (p : exn -> bool) {A} (m : @M S A) : Prop :=
  forall w e w', m w = (Raise e, w') -> p e = true.

(** Whatever [m] returns satisfies [q]. *)
Definition returns_only {A} (q : A -> Prop) (m : @M S A) : Prop :=
  forall w a w', m w = (Return a, w') -> q a.

(** The session, the console and the file system raise only exceptions
    that derive from [Exception]. *)
Definition exceptions_only : Prop :=
  forall A (c : call A) s e s', respond A c s = (Raise e, s') -> is_Exception e = true.

(** Every call returns. *)
Definition always_returns : Prop :=
  forall A (c : call A) s, exists a s', respond A c s = (Return a, s').

(** Any call but a load of the site's root page *)
Definition not_site_load (A : Type) (c : call A) : bool := negb (is_site_load (Called c)).

(** ** One attempt of [navigate_to_city] *)

(** Lines 68 to 87: what an attempt does once the root page is loaded *)
Definition navigate_after_load (city state : string) : M bool :=
  perform (wait_until 10 (element_to_be_clickable search_box));;
  perform (find_element search_box);;
  perform (element_clear search_box);;
  let search_query := (city ++ ", " ++ state)%string in
  for_do (PyStr.chars search_query) (fun char =>
    perform (element_send_keys search_box (Char char));;
    d ← uniform (1 # 10) (2 # 10);
    sleep d);;
  perform (element_send_keys search_box Keys_RETURN);;
  perform (wait_until 10 (url_contains "/city/"));;
  current_url ← perform driver_current_url;
  perform (driver_get (PyStr.rstrip_char "/" current_url ++ "/housing-market"));;
  mret true.

(** Lines 65 to 92: the body of the retry loop, [None] standing for
    "go on with the next attempt" *)
Definition retry_body (city state : string) (attempt : Z) : M (option bool) :=
  try_except
    (r ← navigate_attempt city state; mret (Some r))
    (except_Exception (fun e =>
       logger WARNING
         ("Navigation retry " ++ pretty (attempt + 1) ++ " failed: " ++ exn_msg e);;
       sleep 2;;
       mret None)).

(** ** The typing of the search query *)

(** The log of one character typed: the key, the draw of the pause and
    the pause *)
Definition typed (c : ascii) (d : Q) : list event :=
  [Called (element_send_keys search_box (Char c)); Drew (1 # 10) (2 # 10) d; Slept d].

Definition typing (cds : list (ascii * Q)) : list event :=
  flat_map (fun cd => typed cd.1 cd.2) cds.

(** The log of an attempt that goes through, for the pauses [ds] and the
    address [url] read from the browser *)
Definition attempt_log (city state : string) (ds : list Q) (url : string) : list event :=
  [Called (driver_get "https://www.redfin.com");
   Called (wait_until 10 (element_to_be_clickable search_box));
   Called (find_element search_box);
   Called (element_clear search_box)]
  ++ typing (zip (PyStr.chars (city ++ ", " ++ state)) ds)
  ++ [Called (element_send_keys search_box Keys_RETURN);
      Called (wait_until 10 (url_contains "/city/"));
      Called driver_current_url;
      Called (driver_get (PyStr.rstrip_char "/" url ++ "/housing-market"))].

(** The last character of [s] is [c]. *)
Definition ends_with (c : ascii) (s : string) : bool :=
  match rev (PyStr.chars s) with
  | x :: _ => Ascii.eqb c x
  | [] => false
  end.

(** ** Setup and the console *)

(** The browser gets launched from state [s]: the driver is installed
    and [webdriver.Chrome] returns. *)
Definition launched (s : S) : bool :=
  match respond unit chromedriver_install s with
  | (Return _, s1) =>
      match respond unit (webdriver_Chrome chrome_arguments chrome_experimental_options) s1 with
      | (Return _, _) => true
      | (Raise _, _) => false
      end
  | (Raise _, _) => false
  end.

(** The event is a call of [input]. *)
Definition is_prompt (ev : event) : bool :=
  match ev with
  | Called c => match c with input _ => true | _ => false end
  | _ => false
  end.

Definition prompts (l : list event) : nat := length (List.filter is_prompt l).

(** The lines printed, in order *)
Definition printed (l : list event) : list string :=
  omap (fun ev => match ev with Printed line => Some line | _ => None end) l.

(** ** The lines [main] prints *)

(** [f"{date_key}: {formatted_price}"] *)
Definition price_line (kv : string * pyfloat) : string :=
  (kv.1 ++ ": " ++ "$" ++ Console.format_2f kv.2)%string.

(** The key of [a] is not above the key of [b]. *)
Definition key_le (a b : string * pyfloat) : Prop := String.leb a.1 b.1 = true.

Definition header_line (city state : string) : string :=
  (newline ++ "Median Sale Prices for " ++ city ++ ", " ++ state ++ ":")%string.

Definition saved_line : string := (newline ++ "Results saved to 'median_prices.json'")%string.

(** ** Days of the month *)

(** The day of the month of iteration [i]'s date *)
Definition day_of (t : datetime) (i : Z) : Z :=
  match sub_days t (30 * i) with
  | Return d => day d
  | Raise _ => 0
  end.

(** None of the dates of iterations 0 to 34 falls on the 31st. *)
Definition no_day_31 (t : datetime) : bool :=
  forallb (fun i => negb (day_of t i =? 31)) (seqZ 0 35).

(** How many of the dates of iterations 0 to 34 fall on the 31st *)
Definition days_31 (t : datetime) : nat :=
  length (List.filter (fun i => day_of t i =? 31) (seqZ 0 35)).

(** ** Worlds for closed instances *)

(** Noon of 31 January 2024, and a morning in mid June *)
Definition jan31 : datetime := DateTime 2024 1 31 12 0 0 0.
Definition june15 : datetime := DateTime 2024 6 15 9 30 0 0.

Definition w_jan31 : world Fake.t :=
  Fake.start (Fake.Make true "$500K" jan31 [1 # 100; - (1 # 100)]%Q 0).

Definition w_june15 : world Fake.t :=
  Fake.start (Fake.Make true "$100.004" june15 [- (2 # 100)]%Q 0).

(** A session whose waits time out, and one whose page loads *)
Definition offline : world Fake.t :=
  Fake.start (Fake.Make false "$450K" (DateTime 2024 6 15 9 30 0 0) [] 0).

Definition online : world Fake.t :=
  Fake.start (Fake.Make true "$450K" (DateTime 2024 6 15 9 30 0 0) [] 0).

(** A session whose page loads but whose price element shows no number *)
Definition unpriced : world Fake.t :=
  Fake.start (Fake.Make true "N/A" (DateTime 2024 6 15 9 30 0 0) [] 0).

(** The fake session once the price element of Austin, TX has been read:
    navigation, the wait for the element and the reading of its text *)
Definition price_read (w : world Fake.t) : world Fake.t :=
  (@perform Fake.t Fake.fake_env _ (element_text price_xpath)
     (@perform Fake.t Fake.fake_env _
        (wait_until 20 (presence_of_element_located price_xpath))
        (@navigate_to_city Fake.t Fake.fake_env "Austin" "TX" w).2).2).2.

End Vocabulary.

(** * Properties *)

(** ** The series loop as a fold *)

Section Series.

Context {S : Type} `{Env S}.

Lemma sub_days_ok t i :
  date_ok t i -> exists d, sub_days t (30 * i) = Return d.
Proof.
  intros [Hlo Hhi]. unfold sub_days. unfold FIRST_4DIGIT in Hlo.
  assert (0 < toordinal t - 30 * i) as Hpos by lia.
  apply Z.ltb_lt in Hpos. apply Z.leb_le in Hhi. rewrite Hpos, Hhi. simpl.
  destruct (ord2ymd _) as [[y m] d]. eauto.
Qed.

Lemma series_step_run P t m i w :
  date_ok t i ->
  series_step P t m i w =
    let (r, s') := random_uniform (- (2 # 100)) (2 # 100) (env w) in
    (Return (store P t m (i, r)),
     World s' (self_driver w) (log w ++ [drew r])).
Proof.
  intros Hok. destruct (sub_days_ok t i Hok) as [d Hd].
  unfold series_step, store, date_key, monthly_value, mbind, M_bind, lift, uniform; simpl.
  rewrite Hd.
  destruct (random_uniform _ _ (env w)) as [r s']. reflexivity.
Qed.

Lemma series_loop_run P t indices : forall m w,
  Forall (date_ok t) indices ->
  series_loop P t indices m w =
    let (rs, s') := draw_seq (- (2 # 100)) (2 # 100) (length indices) (env w) in
    (Return (foldl (store P t) m (zip indices rs)),
     World s' (self_driver w) (log w ++ map drew rs)).
Proof.
  induction indices as [|i rest IH]; intros m w Hall.
  - simpl. rewrite app_nil_r. destruct w; reflexivity.
  - inversion Hall as [|? ? Hi Hrest]; subst.
    cbn [series_loop]. unfold mbind, M_bind.
    rewrite (series_step_run P t m i w Hi).
    cbn [length draw_seq].
    destruct (random_uniform _ _ (env w)) as [r s1].
    rewrite (IH _ _ Hrest). cbn [env self_driver log].
    destruct (draw_seq _ _ (length rest) s1) as [rs s2].
    cbn [zip zip_with foldl map]. rewrite <- app_assoc. reflexivity.
Qed.

End Series.

(** ** What a sequence of stores leaves in the mapping *)

Section Stores.

Variables (P : pyfloat) (t : datetime).

Lemma foldl_store_snoc m l ir :
  foldl (store P t) m (l ++ [ir]) = store P t (foldl (store P t) m l) ir.
Proof. by rewrite foldl_app. Qed.

(** The last store under a key is the one read back. *)
Lemma foldl_store_last l : forall m (j : nat) i r,
  l !! j = Some (i, r) ->
  (forall j' i' r', (j < j')%nat -> l !! j' = Some (i', r') ->
     date_key t i' <> date_key t i) ->
  foldl (store P t) m l !! date_key t i = Some (monthly_value P r).
Proof.
  induction l as [|x l IH] using rev_ind; intros m j i r Hj Hlast.
  - by rewrite lookup_nil in Hj.
  - rewrite foldl_store_snoc. unfold store at 1.
    destruct (decide (j = length l)) as [->|Hne].
    + rewrite lookup_app_r, Nat.sub_diag in Hj by lia.
      simpl in Hj. injection Hj as ->. simpl. apply lookup_insert_eq.
    + assert (j < length l)%nat as Hlt.
      { apply lookup_lt_Some in Hj. rewrite length_app in Hj. simpl in Hj. lia. }
      rewrite lookup_app_l in Hj by done.
      destruct x as [i' r'].
      rewrite lookup_insert_ne.
      * apply (IH m j i r Hj). intros j' i'' r'' Hjj' Hj'.
        apply (Hlast j' i'' r'' Hjj'). apply lookup_app_l_Some. exact Hj'.
      * simpl. apply (Hlast (length l) i' r' Hlt).
        rewrite lookup_app_r, Nat.sub_diag by lia. reflexivity.
Qed.

(** Every entry was there before or was stored by some iteration. *)
Lemma foldl_store_inv l : forall m k v,
  foldl (store P t) m l !! k = Some v ->
  m !! k = Some v \/
  exists i r, (i, r) ∈ l /\ k = date_key t i /\ v = monthly_value P r.
Proof.
  induction l as [|x l IH] using rev_ind; intros m k v Hk.
  - left. exact Hk.
  - rewrite foldl_store_snoc in Hk. unfold store at 1 in Hk.
    destruct x as [i r]. simpl in Hk.
    destruct (decide (date_key t i = k)) as [<-|Hne].
    + rewrite lookup_insert_eq in Hk. injection Hk as <-.
      right. exists i, r. split; [|done]. apply elem_of_app. right.
      apply list_elem_of_singleton. reflexivity.
    + rewrite lookup_insert_ne in Hk by done.
      destruct (IH m k v Hk) as [?|(i' & r' & Hin & ? & ?)]; [by left|].
      right. exists i', r'. split; [|done]. apply elem_of_app. by left.
Qed.

(** The keys are those that were there and those of the iterations. *)
Lemma foldl_store_dom l : forall m,
  dom (foldl (store P t) m l) = dom m ∪ list_to_set (map (fun ir => date_key t (fst ir)) l).
Proof.
  induction l as [|x l IH]; intros m; simpl.
  - by rewrite union_empty_r_L.
  - rewrite IH. unfold store at 1. rewrite dom_insert_L.
    rewrite (comm_L (∪) _ (dom m)). symmetry. apply (assoc_L (∪)).
Qed.

End Stores.

(** ** Rounding and the two-percent band *)

Section Rounding.

Local Open Scope Q_scope.

Lemma round_half_even_mono (x y : Q) :
  x <= y -> (PyFloat.round_half_even x <= PyFloat.round_half_even y)%Z.
Proof.
  intros Hxy. unfold PyFloat.round_half_even.
  pose proof (Qfloor_le x) as Hx1. pose proof (Qlt_floor x) as Hx2.
  pose proof (Qfloor_le y) as Hy1. pose proof (Qlt_floor y) as Hy2.
  pose proof (Qfloor_resp_le x y Hxy) as Hf.
  rewrite inject_Z_plus in Hx2, Hy2.
  destruct (Z.eq_dec (Qfloor x) (Qfloor y)) as [Heq|Hne].
  - rewrite <- Heq in *. clear Heq Hf.
    set (f := Qfloor x) in *. set (q := inject_Z f) in *.
    destruct (Qcompare_spec (x - q) (1 # 2)) as [Hx|Hx|Hx];
    destruct (Qcompare_spec (y - q) (1 # 2)) as [Hy|Hy|Hy];
    try destruct (Z.even f); try lia; exfalso; lra.
  - assert (Qfloor x + 1 <= Qfloor y)%Z as Hlt by lia.
    destruct (Qcompare (x - inject_Z (Qfloor x)) (1 # 2));
    destruct (Qcompare (y - inject_Z (Qfloor y)) (1 # 2));
    try destruct (Z.even (Qfloor x)); try destruct (Z.even (Qfloor y)); lia.
Qed.

Lemma round2_mono (x y : Q) :
  x <= y -> PyFloat.le (PyFloat.round2 (Fin x)) (PyFloat.round2 (Fin y)).
Proof.
  intros Hxy. simpl.
  assert (x * 100 <= y * 100) as H100 by lra.
  apply round_half_even_mono in H100.
  unfold Qle. simpl. lia.
Qed.

(** A finite price moved by at most two percent stays in the band. *)
Lemma band_finite (p r : Q) :
  0 < p -> - (2 # 100) <= r <= 2 # 100 ->
  p * (98 # 100) <= p * (1 + r) <= p * (102 # 100).
Proof. intros Hp [Hlo Hhi]. split; nra. Qed.

Lemma one_plus_positive (r : Q) :
  - (2 # 100) <= r -> (0 < Qnum (1 + r))%Z.
Proof.
  intros Hlo. assert (0 < 1 + r) as Hpos by lra.
  unfold Qlt in Hpos. simpl in Hpos. simpl. lia.
Qed.

(** The price of one iteration, before and after rounding *)
Lemma band_value (P : pyfloat) (r : Q) :
  PyFloat.lt (Fin 0) P -> - (2 # 100) <= r <= 2 # 100 ->
  let x := PyFloat.mul P (PyFloat.add (Fin 1) (Fin r)) in
  let lo := PyFloat.mul P (Fin (98 # 100)) in
  let hi := PyFloat.mul P (Fin (102 # 100)) in
  (PyFloat.le lo x /\ PyFloat.le x hi) /\
  (PyFloat.le (PyFloat.round2 lo) (PyFloat.round2 x) /\
   PyFloat.le (PyFloat.round2 x) (PyFloat.round2 hi)).
Proof.
  intros HP Hr. destruct P as [p| | |]; simpl in HP; try contradiction.
  - destruct (band_finite p r HP Hr) as [Hlo Hhi].
    cbn [PyFloat.mul PyFloat.add]. repeat split.
    + exact Hlo.
    + exact Hhi.
    + apply round2_mono, Hlo.
    + apply round2_mono, Hhi.
  - pose proof (one_plus_positive r (proj1 Hr)) as Hpos.
    cbn [PyFloat.add]. unfold PyFloat.mul, PyFloat.sgn.
    assert (Z.sgn (Qnum (1 + r)) = 1%Z) as -> by (apply Z.sgn_pos; exact Hpos).
    simpl. repeat split.
Qed.

End Rounding.

(** ** The generated series *)

Section Generated.

Context {S : Type} `{Env S}.

Lemma anchor_dates_ok t : anchor_ok t -> Forall (date_ok t) (seqZ 0 36).
Proof.
  intros Hok. apply Forall_forall. intros i Hi.
  apply elem_of_seqZ in Hi. unfold anchor_ok in Hok. unfold date_ok. lia.
Qed.

Lemma draw_seq_length a b n : forall s, length (draw_seq a b n s).1 = n.
Proof.
  induction n as [|n IH]; intros s; simpl; [done|].
  destruct (random_uniform a b s) as [r s']. specialize (IH s').
  destruct (draw_seq a b n s') as [rs s'']. simpl in *. by rewrite IH.
Qed.

Lemma generate_series_run P w :
  anchor_ok (anchor_of w) ->
  exists w',
    generate_series P w =
      (Return (foldl (store P (anchor_of w)) ∅ (zip (seqZ 0 36) (draws_of w))), w')
    /\ self_driver w' = self_driver w
    /\ log w' = log w ++ Clock (anchor_of w) :: map drew (draws_of w).
Proof.
  intros Hok. unfold anchor_of, draws_of in *.
  unfold generate_series, mbind, M_bind, now.
  destruct (datetime_now (env w)) as [t s1]. cbn [fst snd] in *.
  rewrite (series_loop_run P t (seqZ 0 36) _ _ (anchor_dates_ok t Hok)).
  change (length (seqZ 0 36)) with 36%nat. cbn [env self_driver log].
  destruct (draw_seq _ _ 36 s1) as [rs s2]. eexists. split; [reflexivity|].
  cbn [self_driver log fst]. split; [reflexivity|].
  rewrite <- app_assoc. reflexivity.
Qed.

Lemma series_pair_lookup w (j : Z) :
  0 <= j < 36 ->
  exists r, draws_of w !! Z.to_nat j = Some r /\
    zip (seqZ 0 36) (draws_of w) !! Z.to_nat j = Some (j, r).
Proof.
  intros Hj.
  assert (length (draws_of w) = 36%nat) as Hlen by apply draw_seq_length.
  destruct (lookup_lt_is_Some_2 (draws_of w) (Z.to_nat j)) as [r Hr]; [lia|].
  exists r. split; [exact Hr|].
  apply lookup_zip_with_Some. exists j, r. split; [reflexivity|]. split; [|exact Hr].
  apply lookup_seqZ. lia.
Qed.

End Generated.

(** ** The shape of a date key *)

Lemma digit_char (k : Z) :
  0 <= k < 10 -> FloatText.is_digit (ascii_of_N (Z.to_N (48 + k))) = true.
Proof.
  intros Hk.
  assert (k = 0 \/ k = 1 \/ k = 2 \/ k = 3 \/ k = 4 \/ k = 5 \/ k = 6 \/
          k = 7 \/ k = 8 \/ k = 9) as Hcases by lia.
  repeat (destruct Hcases as [->|Hcases]; [reflexivity|]). subst k. reflexivity.
Qed.

Lemma strftime_Y_m_shape (d : datetime) :
  matches_YYYY_MM (strftime_Y_m d) = true.
Proof.
  unfold matches_YYYY_MM, strftime_Y_m, PyStr.chars, PyStr.text.
  rewrite list_ascii_of_string_of_list_ascii.
  cbn [zero_padded app forallb].
  rewrite !digit_char by (apply Z.mod_pos_bound; lia). reflexivity.
Qed.

(** The date at an ordinal in range has a year of four digits at most
    and a month from 1 to 12, so that the key shows them in full. *)
Lemma ord2ymd_range (n : Z) :
  FIRST_4DIGIT <= n <= MAXORDINAL ->
  let '(y, m, _) := ord2ymd n in 1000 <= y <= 9999 /\ 1 <= m <= 12.
Proof.
  intros Hn. unfold MAXORDINAL, FIRST_4DIGIT in Hn.
  unfold ord2ymd, DI400Y, DI100Y, DI4Y.
  set (n0 := n - 1).
  set (n400 := n0 / 146097). set (r400 := n0 mod 146097).
  set (n100 := r400 / 36524). set (r100 := r400 mod 36524).
  set (n4 := r100 / 1461). set (r4 := r100 mod 1461).
  set (n1 := r4 / 365). set (r1 := r4 mod 365).
  assert (364877 <= n0 < 3652059) as Hn0 by (unfold n0; lia).
  assert (0 <= r400 < 146097) by (apply Z.mod_pos_bound; lia).
  assert (0 <= r100 < 36524) by (apply Z.mod_pos_bound; lia).
  assert (0 <= r4 < 1461) by (apply Z.mod_pos_bound; lia).
  assert (0 <= r1 < 365) as Hr1 by (apply Z.mod_pos_bound; lia).
  assert (n0 = 146097 * n400 + r400) by (apply Z.div_mod; lia).
  assert (r400 = 36524 * n100 + r100) by (apply Z.div_mod; lia).
  assert (r100 = 1461 * n4 + r4) by (apply Z.div_mod; lia).
  assert (r4 = 365 * n1 + r1) by (apply Z.div_mod; lia).
  assert (0 <= n400) by (apply Z.div_pos; lia).
  assert (0 <= n100) by (apply Z.div_pos; lia).
  assert (0 <= n4) by (apply Z.div_pos; lia).
  assert (0 <= n1) by (apply Z.div_pos; lia).
  destruct ((n1 =? 4) || (n100 =? 4)) eqn:Hlast.
  - split; lia.
  - apply orb_false_iff in Hlast as [Hn1 Hn100].
    apply Z.eqb_neq in Hn1, Hn100.
    rewrite Z.shiftr_div_pow2 by lia. change (2 ^ 5) with 32.
    set (m := (r1 + 50) / 32).
    assert (32 * m <= r1 + 50 < 32 * m + 32) as Hm.
    { unfold m. pose proof (Z.div_mod (r1 + 50) 32 ltac:(lia)).
      pose proof (Z.mod_pos_bound (r1 + 50) 32 ltac:(lia)). lia. }
    assert (m = 1 \/ m = 2 \/ m = 3 \/ m = 4 \/ m = 5 \/ m = 6 \/ m = 7 \/
            m = 8 \/ m = 9 \/ m = 10 \/ m = 11 \/ m = 12) as Hcases by lia.
    clearbody m.
    repeat (destruct Hcases as [->|Hcases]); try subst m; cbn;
      repeat match goal with
             | |- context [if ?b then _ else _] => destruct b eqn:?
             end;
      rewrite ?Z.ltb_lt in *; split; lia.
Qed.

(** The date at ordinal [n] has ordinal [n]: taking days off a date
    moves its ordinal by as much. *)
Lemma ymd2ord_ord2ymd (n : Z) :
  0 < n <= MAXORDINAL ->
  let '(y, m, d) := ord2ymd n in ymd2ord y m d = n.
Proof.
  intros Hn. unfold MAXORDINAL in Hn. unfold ord2ymd, DI400Y, DI100Y, DI4Y.
  set (n0 := n - 1).
  set (n400 := n0 / 146097). set (r400 := n0 mod 146097).
  set (n100 := r400 / 36524). set (r100 := r400 mod 36524).
  set (n4 := r100 / 1461). set (r4 := r100 mod 1461).
  set (n1 := r4 / 365). set (r1 := r4 mod 365).
  assert (0 <= n0 < 3652059) as Hn0 by (unfold n0; lia).
  assert (0 <= r400 < 146097) by (apply Z.mod_pos_bound; lia).
  assert (0 <= r100 < 36524) by (apply Z.mod_pos_bound; lia).
  assert (0 <= r4 < 1461) by (apply Z.mod_pos_bound; lia).
  assert (0 <= r1 < 365) as Hr1 by (apply Z.mod_pos_bound; lia).
  assert (n0 = 146097 * n400 + r400) by (apply Z.div_mod; lia).
  assert (r400 = 36524 * n100 + r100) by (apply Z.div_mod; lia).
  assert (r100 = 1461 * n4 + r4) by (apply Z.div_mod; lia).
  assert (r4 = 365 * n1 + r1) by (apply Z.div_mod; lia).
  assert (0 <= n400) by (apply Z.div_pos; lia).
  assert (0 <= n100) by (apply Z.div_pos; lia).
  assert (0 <= n4) by (apply Z.div_pos; lia).
  assert (0 <= n1) by (apply Z.div_pos; lia).
  assert (n = n0 + 1) as Hnn by (unfold n0; lia).
  clearbody n0 n400 r400 n100 r100 n4 r4 n1 r1.
  destruct ((n1 =? 4) || (n100 =? 4)) eqn:Hlast.
  - apply orb_true_iff in Hlast. rewrite !Z.eqb_eq in Hlast.
    unfold ymd2ord, days_before_year, days_before_month, is_leap.
    change (DAYS_BEFORE_MONTH 12) with 334. change (2 <? 12) with true.
    cbn [andb].
    set (y := n400 * 400 + 1 + n100 * 100 + n4 * 4 + n1 - 1).
    assert (y mod 4 = 0 /\ (y mod 100 <> 0 \/ y mod 400 = 0) /\
            (y - 1) * 365 + (y - 1) / 4 - (y - 1) / 100 + (y - 1) / 400 + 335 + 31 = n)
      as (Hy4 & Hy100 & Hsum).
    { unfold y. destruct Hlast as [-> | ->].
      - assert (r1 = 0) by lia. assert (n4 <= 24) by lia. assert (n100 <= 4) by lia.
        repeat split; [| |]; Z.to_euclidean_division_equations; lia.
      - assert (r100 = 0) by lia. assert (n4 = 0) by lia. assert (n1 = 0) by lia.
        repeat split; [| |]; Z.to_euclidean_division_equations; lia. }
    rewrite Hy4. rewrite Z.eqb_refl. cbn [andb].
    destruct Hy100 as [Hy100|Hy400].
    + apply Z.eqb_neq in Hy100. rewrite Hy100. cbn [negb orb]. lia.
    + rewrite Hy400, Z.eqb_refl, orb_true_r. lia.
  - apply orb_false_iff in Hlast as [Hn1 Hn100].
    apply Z.eqb_neq in Hn1, Hn100.
    assert (n1 <= 3) by lia. assert (n100 <= 3) by lia. assert (n4 <= 24) by lia.
    set (y := n400 * 400 + 1 + n100 * 100 + n4 * 4 + n1).
    set (leapyear := (n1 =? 3) && (negb (n4 =? 24) || (n100 =? 3))).
    assert (is_leap y = leapyear) as Hleap.
    { unfold is_leap, leapyear, y.
      destruct (n1 =? 3) eqn:E1; destruct (n4 =? 24) eqn:E4; destruct (n100 =? 3) eqn:E100;
        rewrite ?Z.eqb_eq, ?Z.eqb_neq in *; cbn [negb andb orb];
        repeat match goal with
               | |- context [?a mod ?b =? 0] =>
                   let E := fresh "E" in destruct (a mod b =? 0) eqn:E;
                   rewrite ?Z.eqb_eq, ?Z.eqb_neq in E
               end; cbn [negb andb orb]; try reflexivity; exfalso;
        Z.to_euclidean_division_equations; lia. }
    assert (days_before_year y = n0 - r1) as Hdby.
    { unfold days_before_year, y. Z.to_euclidean_division_equations. lia. }
    rewrite Z.shiftr_div_pow2 by lia. change (2 ^ 5) with 32.
    set (m := (r1 + 50) / 32).
    assert (32 * m <= r1 + 50 < 32 * m + 32) as Hm.
    { unfold m. pose proof (Z.div_mod (r1 + 50) 32 ltac:(lia)).
      pose proof (Z.mod_pos_bound (r1 + 50) 32 ltac:(lia)). lia. }
    assert (m = 1 \/ m = 2 \/ m = 3 \/ m = 4 \/ m = 5 \/ m = 6 \/ m = 7 \/
            m = 8 \/ m = 9 \/ m = 10 \/ m = 11 \/ m = 12) as Hcases by lia.
    clearbody m y leapyear.
    repeat (destruct Hcases as [->|Hcases]); try subst m;
      destruct leapyear; cbn;
      repeat match goal with
             | |- context [if ?b then _ else _] => destruct b eqn:?
             end;
      unfold ymd2ord, days_before_month; rewrite Hleap, Hdby; simpl; lia.
Qed.

Lemma sub_days_spec (t : datetime) (n : Z) :
  FIRST_4DIGIT <= toordinal t - n <= MAXORDINAL ->
  exists d, sub_days t n = Return d /\
    toordinal d = toordinal t - n /\
    1000 <= year d <= 9999 /\ 1 <= month d <= 12.
Proof.
  intros Hn.
  assert (0 < toordinal t - n <= MAXORDINAL) as Hn'
    by (unfold FIRST_4DIGIT in Hn; lia).
  pose proof (ymd2ord_ord2ymd _ Hn') as Hord.
  pose proof (ord2ymd_range _ Hn) as Hrange.
  unfold sub_days. destruct Hn' as [Hlo Hhi].
  apply Z.ltb_lt in Hlo. apply Z.leb_le in Hhi. rewrite Hlo, Hhi. cbn [andb].
  destruct (ord2ymd (toordinal t - n)) as [[y m] d].
  eexists. split; [reflexivity|]. unfold toordinal at 1. cbn [year month day].
  split; [exact Hord|exact Hrange].
Qed.

(** ** The keys of the generated series *)

Section GeneratedKeys.

Context {S : Type} `{Env S}.

(** The keys of the mapping are the formatted dates of the 36 iterations. *)
Lemma generated_keys P w :
  anchor_ok (anchor_of w) ->
  exists m,
    (generate_series P w).1 = Return m /\
    dom m = list_to_set (map (date_key (anchor_of w)) (seqZ 0 36)).
Proof.
  intros Hok. destruct (generate_series_run P w Hok) as (w' & Hrun & _ & _).
  eexists. rewrite Hrun. split; [reflexivity|].
  rewrite foldl_store_dom, dom_empty_L, (left_id_L ∅ (∪)).
  rewrite <- (map_map fst (date_key (anchor_of w))).
  change (map fst ?l) with (l.*1).
  rewrite fst_zip; [reflexivity|].
  unfold draws_of. rewrite draw_seq_length. reflexivity.
Qed.

Lemma size_list_to_set_le (l : list string) :
  (size (list_to_set l : gset string) <= length l)%nat.
Proof.
  induction l as [|x l IH]; cbn [list_to_set length].
  - rewrite size_empty. lia.
  - rewrite size_union_alt, size_singleton.
    pose proof (subseteq_size (list_to_set l ∖ {[x]}) (list_to_set l : gset string)
                  ltac:(apply subseteq_difference_l; reflexivity)).
    lia.
Qed.

Lemma date_key_shape t i : date_ok t i -> matches_YYYY_MM (date_key t i) = true.
Proof.
  intros Hok. destruct (sub_days_ok t i Hok) as [d Hd].
  unfold date_key. rewrite Hd. apply strftime_Y_m_shape.
Qed.

(** Every key of the mapping reads YYYY-MM, and there are 36 keys at most. *)
Theorem generated_keys_shape (P : pyfloat) (w : world S) :
  anchor_ok (anchor_of w) ->
  exists m,
    (generate_series P w).1 = Return m /\
    (size m <= 36)%nat /\
    forall k, is_Some (m !! k) -> matches_YYYY_MM k = true.
Proof.
  intros Hok. destruct (generated_keys P w Hok) as (m & Hm & Hdom).
  exists m. split; [exact Hm|]. split.
  - rewrite <- size_dom, Hdom.
    etransitivity; [apply size_list_to_set_le|]. rewrite length_map. reflexivity.
  - intros k Hk. apply elem_of_dom in Hk. rewrite Hdom in Hk.
    apply elem_of_list_to_set, list_elem_of_fmap in Hk as (i & -> & Hi).
    apply date_key_shape.
    pose proof (anchor_dates_ok _ Hok) as Hall. rewrite Forall_forall in Hall.
    apply Hall, Hi.
Qed.

End GeneratedKeys.

(** ** Claims about the series generator *)

Section SeriesClaims.

Context {S : Type} `{Env S}.

Lemma series_loop_app P t l1 l2 : forall m w,
  series_loop P t (l1 ++ l2) m w =
    match series_loop P t l1 m w with
    | (Return m', w') => series_loop P t l2 m' w'
    | (Raise e, w') => (Raise e, w')
    end.
Proof.
  induction l1 as [|i l1 IH]; intros m w; [reflexivity|].
  cbn [app series_loop]. unfold mbind, M_bind.
  destruct (series_step P t m i w) as [[m1|e] w1]; [apply IH|reflexivity].
Qed.


(** C6: when several iterations format the same key, the mapping
    returned holds under that key the value of the last of them: if
    iterations [i < j] share a key and no iteration after [j] has it, the
    value kept is the one computed from the draw of iteration [j]. *)
Theorem duplicate_key_last_write_wins (P : pyfloat) (w : world S) (i j : Z) :
  anchor_ok (anchor_of w) ->
  0 <= i < j -> j < 36 ->
  date_key (anchor_of w) i = date_key (anchor_of w) j ->
  (forall j', j < j' < 36 -> date_key (anchor_of w) j' <> date_key (anchor_of w) j) ->
  exists m r,
    (generate_series P w).1 = Return m /\
    draws_of w !! Z.to_nat j = Some r /\
    m !! date_key (anchor_of w) i = Some (monthly_value P r).
Proof.
  intros Hok Hij Hj Hsame Hlast.
  destruct (generate_series_run P w Hok) as (w' & Hrun & _ & _).
  destruct (series_pair_lookup w j ltac:(lia)) as (r & Hr & Hpair).
  eexists _, r. rewrite Hrun. split; [reflexivity|]. split; [exact Hr|].
  rewrite Hsame.
  apply (foldl_store_last P (anchor_of w) _ ∅ (Z.to_nat j) j r Hpair).
  intros j' i' r' Hlt Hj'.
  apply lookup_zip_with_Some in Hj' as (i'' & r'' & Heq & Hi' & _).
  injection Heq as <- <-. apply lookup_seqZ in Hi' as [-> Hbound].
  apply Hlast. lia.
Qed.


End SeriesClaims.

(** ** Checks that compute *)

Lemma variation_ok_check (rs : list Q) :
  forallb variation_okb rs = true -> Forall variation_ok rs.
Proof.
  intros Hall. apply Forall_forall. intros r Hr.
  rewrite forallb_forall in Hall.
  specialize (Hall r (proj1 (list_elem_of_In _ _) Hr)).
  apply andb_true_iff in Hall as [Hlo Hhi].
  split; apply Qle_bool_iff; assumption.
Defined.

Lemma later_keys_differ_check (t : datetime) (j : Z) :
  forallb (fun j' => negb (String.eqb (date_key t j') (date_key t j)))
          (seqZ (j + 1) (35 - j)) = true ->
  forall j', j < j' < 36 -> date_key t j' <> date_key t j.
Proof.
  intros Hall j' Hj' Heq.
  rewrite forallb_forall in Hall.
  assert (In j' (seqZ (j + 1) (35 - j))) as Hin.
  { apply list_elem_of_In, elem_of_seqZ. lia. }
  specialize (Hall j' Hin). rewrite Heq, String.eqb_refl in Hall. discriminate.
Defined.

(** ** Closed instances on the scripted environment *)

Module Examples.

Import Fake.

Lemma jan31_anchor_ok : anchor_ok (anchor_of w_jan31).
Proof. unfold anchor_ok. vm_compute. split; discriminate. Defined.

Lemma june15_anchor_ok : anchor_ok (anchor_of w_june15).
Proof. unfold anchor_ok. vm_compute. split; discriminate. Defined.


Lemma duplicate_key_last_write_wins_witness :
  exists m r,
    (generate_series (Fin 500000) w_jan31).1 = Return m /\
    draws_of w_jan31 !! Z.to_nat 1 = Some r /\
    m !! date_key (anchor_of w_jan31) 0 = Some (monthly_value (Fin 500000) r).
Proof.
  apply (duplicate_key_last_write_wins (Fin 500000) w_jan31 0 1 jan31_anchor_ok).
  - lia.
  - lia.
  - vm_compute. reflexivity.
  - apply later_keys_differ_check. vm_compute. reflexivity.
Defined.

(** The instance in figures: iterations 0 and 1 both fall in January
    2024, and the value kept is that of iteration 1 (the draw -0.01). *)
Example jan31_keeps_second_write :
  date_key jan31 0 = "2024-01"%string /\
  date_key jan31 1 = "2024-01"%string /\
  stored_under "2024-01" (generate_series (Fin 500000) w_jan31).1
    = Some (Fin (49500000 # 100)).
Proof. vm_compute. repeat split. Qed.



Lemma generated_keys_shape_witness :
  exists m,
    (generate_series (Fin 500000) w_june15).1 = Return m /\
    (size m <= 36)%nat /\
    forall k, is_Some (m !! k) -> matches_YYYY_MM k = true.
Proof.
  exact (generated_keys_shape (Fin 500000) w_june15 june15_anchor_ok).
Defined.

(** C1 fails when the anchor is the 31st of a month: whatever the anchor
    price, the draws and the time of day, at the anchor 31 January 2024
    iterations 0 and 1 both format the key 2024-01 (31 January less 30
    days is 1 January) and the mapping has 35 keys, not 36. *)
Theorem day31_anchor_yields_35_keys (P : pyfloat) (rs : list Q) (h mi s us : Z) :
  exists m,
    (generate_series P
       (Fake.start (Fake.Make true "$500K" (DateTime 2024 1 31 h mi s us) rs 0))).1
      = Return m /\
    size m = 35%nat /\
    date_key (DateTime 2024 1 31 h mi s us) 0 = "2024-01"%string /\
    date_key (DateTime 2024 1 31 h mi s us) 1 = "2024-01"%string.
Proof.
  set (w := Fake.start _).
  assert (anchor_ok (anchor_of w)) as Hok.
  { unfold anchor_ok. vm_compute. split; discriminate. }
  destruct (generated_keys P w Hok) as (m & Hm & Hdom).
  exists m. split; [exact Hm|]. split.
  - rewrite <- size_dom, Hdom. vm_compute. reflexivity.
  - split; vm_compute; reflexivity.
Qed.

End Examples.

(** ** Claims about the price text *)

Section PriceText.

Import PyStr.

Lemma chars_text (l : list ascii) : chars (text l) = l.
Proof. apply list_ascii_of_string_of_list_ascii. Qed.

Lemma chars_app (s1 s2 : string) : chars (s1 ++ s2) = chars s1 ++ chars s2.
Proof.
  unfold chars. induction s1 as [|c s1 IH]; [reflexivity|].
  simpl. by rewrite IH.
Qed.

Lemma chars_remove_char (c : ascii) (s : string) :
  chars (remove_char c s) = List.filter (fun x => negb (Ascii.eqb c x)) (chars s).
Proof. unfold remove_char. apply chars_text. Qed.

Lemma remove_char_app (c : ascii) (s1 s2 : string) :
  remove_char c (s1 ++ s2) = (remove_char c s1 ++ remove_char c s2)%string.
Proof.
  unfold remove_char. rewrite chars_app, List.filter_app.
  unfold text. generalize (List.filter (fun x => negb (Ascii.eqb c x)) (chars s1)).
  intros l. induction l as [|a l IH]; [reflexivity|]. simpl. by rewrite IH.
Qed.

Lemma contains_app (c : ascii) (s1 s2 : string) :
  contains c (s1 ++ s2) = contains c s1 || contains c s2.
Proof. unfold contains. rewrite chars_app. apply existsb_app. Qed.

(** No [c] is left once [c] has been removed. *)
Lemma contains_remove_char (c : ascii) (s : string) :
  contains c (remove_char c s) = false.
Proof.
  unfold contains. rewrite chars_remove_char.
  induction (chars s) as [|a l IH]; [reflexivity|].
  simpl. destruct (Ascii.eqb c a) eqn:Hca; simpl; [exact IH|].
  rewrite Hca. exact IH.
Qed.

(** Removing another character does not bring [c] back. *)
Lemma contains_remove_other (c c' : ascii) (s : string) :
  contains c s = false -> contains c (remove_char c' s) = false.
Proof.
  unfold contains. rewrite chars_remove_char.
  induction (chars s) as [|a l IH]; [reflexivity|].
  simpl. intros Hs. apply orb_false_iff in Hs as [Ha Hl].
  destruct (Ascii.eqb c' a); simpl; [auto|]. rewrite Ha. auto.
Qed.

(** C2: the conversion maps "$450K" to 450000.0 and "$875,250" to
    875250.0 and raises [ValueError] on "N/A"; in general, when the text
    without [$] and [,] contains a [K], the [K]s are dropped and the
    number read from the rest is multiplied by 1000, and otherwise the
    text without [$] and [,] is read as it is. *)
Theorem price_text_conversion :
  convert_price_text (strip "$450K") = Return (Fin 450000) /\
  convert_price_text (strip "$875,250") = Return (Fin 875250) /\
  (exists msg, convert_price_text (strip "N/A") = Raise (Exn ValueError msg)) /\
  forall price_text : string,
    let price_value := remove_char "," (remove_char "$" price_text) in
    (contains "K" price_value = true ->
       convert_price_text price_text = in_thousands (py_float (remove_char "K" price_value))) /\
    (contains "K" price_value = false ->
       convert_price_text price_text = py_float price_value).
Proof.
  split; [reflexivity|]. split; [reflexivity|]. split; [eexists; reflexivity|].
  intros price_text price_value. unfold convert_price_text. fold price_value.
  split; intros ->; reflexivity.
Qed.

(** C10: a [K] marks thousands wherever it stands: for a text with a [K]
    between any [pre] and [post], every [K] (and [$] and [,]) is dropped,
    what is left is read as a number and multiplied by 1000; so "K450"
    and "4K50" both give 450000.0 instead of a parse error. *)
Theorem marker_K_at_any_position (pre post : string) :
  contains "K" (bare_number (pre ++ post)) = false /\
  convert_price_text (pre ++ "K" ++ post) =
    in_thousands (py_float (bare_number (pre ++ post))) /\
  convert_price_text "K450" = Return (Fin 450000) /\
  convert_price_text "4K50" = Return (Fin 450000).
Proof.
  split; [apply contains_remove_char|].
  split; [|split; reflexivity].
  unfold convert_price_text, bare_number.
  rewrite !remove_char_app, !contains_app.
  change (contains "K" (remove_char "," (remove_char "$" "K"))) with true.
  rewrite orb_true_l, orb_true_r. reflexivity.
Qed.

End PriceText.

(** ** Which calls a piece of the program can make *)

Section Quiet.

Context {S : Type} `{Env S}.

Variable ok : forall A, call A -> bool.

Local Abbreviation quiet' := (@quiet S ok _) (only parsing).

Lemma extends_refl (w : world S) : extends ok w w.
Proof. split; [reflexivity|]. exists []. by rewrite app_nil_r. Qed.

Lemma extends_trans (w1 w2 w3 : world S) :
  extends ok w1 w2 -> extends ok w2 w3 -> extends ok w1 w3.
Proof.
  intros [Hd1 (e1 & Hl1 & Ha1)] [Hd2 (e2 & Hl2 & Ha2)]. split; [congruence|].
  exists (e1 ++ e2). rewrite Hl2, Hl1, <- app_assoc. split; [reflexivity|].
  rewrite forallb_app, Ha1, Ha2. reflexivity.
Qed.

Lemma extends_record (w : world S) ev : allowed ok ev = true -> extends ok w (record ev w).
Proof.
  intros Hev. split; [reflexivity|]. exists [ev]. split; [reflexivity|].
  simpl. by rewrite Hev.
Qed.

Lemma quiet_ret {A} (a : A) : quiet' (mret a).
Proof. intros w. apply extends_refl. Qed.

Lemma quiet_raise {A} (e : exn) : quiet' (@raise S A e).
Proof. intros w. apply extends_refl. Qed.

Lemma quiet_lift {A} (r : outcome A) : quiet' (lift (S := S) r).
Proof. intros w. apply extends_refl. Qed.

Lemma quiet_get_self_driver : quiet' get_self_driver.
Proof. intros w. apply extends_refl. Qed.

Lemma quiet_bind {A B} (m : M A) (f : A -> M B) :
  quiet' m -> (forall a, quiet' (f a)) -> quiet' (m ≫= f).
Proof.
  intros Hm Hf w. specialize (Hm w). unfold mbind, M_bind.
  destruct (m w) as [[a|e] w1]; simpl in *; [|exact Hm].
  eapply extends_trans; [exact Hm|apply Hf].
Qed.

Lemma quiet_perform {A} (c : call A) : ok A c = true -> quiet' (perform c).
Proof.
  intros Hc w. unfold perform. destruct (respond A c (env w)) as [r s'].
  split; [reflexivity|]. exists [Called c]. split; [reflexivity|].
  simpl. by rewrite Hc.
Qed.

Lemma quiet_uniform a b : quiet' (uniform a b).
Proof.
  intros w. unfold uniform. destruct (random_uniform a b (env w)) as [r s'].
  split; [reflexivity|]. by exists [Drew a b r].
Qed.

Lemma quiet_now : quiet' now.
Proof.
  intros w. unfold now. destruct (datetime_now (env w)) as [t s'].
  split; [reflexivity|]. by exists [Clock t].
Qed.

Lemma quiet_sleep d : quiet' (sleep d).
Proof. intros w. by apply extends_record. Qed.

Lemma quiet_logger l msg : quiet' (logger l msg).
Proof. intros w. by apply extends_record. Qed.

Lemma quiet_print line : quiet' (print line).
Proof. intros w. by apply extends_record. Qed.

Lemma quiet_try_except {A} (body : M A) handler :
  quiet' body -> (forall e h, handler e = Some h -> quiet' h) ->
  quiet' (try_except body handler).
Proof.
  intros Hb Hh w. specialize (Hb w). unfold try_except.
  destruct (body w) as [[a|e] w1]; simpl in *; [exact Hb|].
  destruct (handler e) as [h|] eqn:He; [|exact Hb].
  eapply extends_trans; [exact Hb|apply (Hh e h He)].
Qed.

Lemma quiet_except_Exception {A} (h : exn -> M A) :
  (forall e, quiet' (h e)) ->
  forall e h', except_Exception h e = Some h' -> quiet' h'.
Proof.
  intros Hh e h'. unfold except_Exception.
  destruct (is_Exception e); [|discriminate]. intros [= <-]. apply Hh.
Qed.

Lemma quiet_try_finally {A} (body : M A) final :
  quiet' body -> quiet' final -> quiet' (try_finally body final).
Proof.
  intros Hb Hf w. specialize (Hb w). unfold try_finally.
  destruct (body w) as [r w1]. specialize (Hf w1).
  destruct (final w1) as [[u|e] w2]; simpl in *; eapply extends_trans; eauto.
Qed.

Lemma quiet_for_each {A R} (xs : list A) (body : A -> M (option R)) after :
  (forall x, quiet' (body x)) -> quiet' after -> quiet' (for_each xs body after).
Proof.
  intros Hb Ha. induction xs as [|x xs IH]; [exact Ha|].
  cbn [for_each]. apply quiet_bind; [apply Hb|].
  intros [v|]; [apply quiet_ret|exact IH].
Qed.

Lemma quiet_for_do {A} (xs : list A) (body : A -> M unit) :
  (forall x, quiet' (body x)) -> quiet' (for_do xs body).
Proof.
  intros Hb. induction xs as [|x xs IH]; [apply quiet_ret|].
  cbn [for_do]. apply quiet_bind; [apply Hb|]. intros _. exact IH.
Qed.

Lemma quiet_series_loop P t indices : forall m, quiet' (series_loop P t indices m).
Proof.
  induction indices as [|i rest IH]; intros m; [apply quiet_ret|].
  cbn [series_loop]. apply quiet_bind; [|exact IH].
  unfold series_step. apply quiet_bind; [apply quiet_lift|]. intros d.
  apply quiet_bind; [apply quiet_uniform|]. intros r. apply quiet_ret.
Qed.

End Quiet.

Ltac quiet_tac :=
  repeat first
    [ apply quiet_ret | apply quiet_raise | apply quiet_lift
    | apply quiet_uniform | apply quiet_now | apply quiet_sleep
    | apply quiet_logger | apply quiet_print | apply quiet_get_self_driver
    | apply quiet_perform; reflexivity
    | apply quiet_series_loop
    | apply quiet_for_do; intros
    | apply quiet_for_each; intros
    | apply quiet_try_finally
    | apply quiet_try_except; [|apply quiet_except_Exception; intros]
    | apply quiet_bind; intros
    | match goal with
      | |- quiet _ (if ?b then _ else _) => destruct b
      | |- quiet _ (let '(_, _) := ?p in _) => destruct p
      end ].

(** ** Claims about navigation, teardown and the written file *)

Section Session.

Context {S : Type} `{Env S}.

Lemma quiet_navigate_attempt city state :
  quiet session_only (navigate_attempt city state).
Proof. unfold navigate_attempt. quiet_tac. Qed.

Lemma quiet_navigate_to_city city state :
  quiet session_only (navigate_to_city city state).
Proof. unfold navigate_to_city. quiet_tac. Qed.

Lemma quiet_generate_series P : quiet session_only (generate_series P).
Proof. unfold generate_series. quiet_tac. Qed.

Lemma quiet_get_median_sale_prices state city :
  quiet session_only (get_median_sale_prices state city).
Proof.
  unfold get_median_sale_prices. apply quiet_try_except.
  - quiet_tac.
  - intros e h. destruct (is_ValueError e).
    + intros [= <-]. quiet_tac.
    + apply quiet_except_Exception. intros. quiet_tac.
Qed.

Lemma session_only_quits (w w' : world S) :
  extends session_only w w' ->
  self_driver w' = self_driver w /\
  exists evs, log w' = log w ++ evs /\ quits evs = 0%nat /\ file_events evs = [].
Proof.
  intros [Hd (evs & Hl & Hall)]. split; [exact Hd|]. exists evs. split; [exact Hl|].
  unfold quits, file_events. clear Hl.
  induction evs as [|ev evs IH]; [done|].
  simpl in Hall. apply andb_true_iff in Hall as [Hev Hall].
  destruct (IH Hall) as [IH1 IH2]. simpl.
  assert (is_quit ev = false /\ is_file_event ev = false) as [-> ->]; [|done].
  unfold is_quit. destruct ev as [A c| | | | |]; try done.
  simpl in *. destruct c; try done.
Qed.

(** *** Navigation *)

Lemma attempts_app l1 l2 : attempts (l1 ++ l2) = (attempts l1 + attempts l2)%nat.
Proof. unfold attempts. by rewrite List.filter_app, length_app. Qed.

Section FailingWaits.

Variables city state : string.

(** What the session raises derives from [Exception], as Selenium's
    errors do. *)
Hypothesis session_exceptions :
  forall A (c : call A) s e s', respond A c s = (Raise e, s') -> is_Exception e = true.

(** Every wait times out. *)
Hypothesis waits_fail :
  forall timeout cond s, exists e s',
    respond unit (wait_until timeout cond) s = (Raise e, s').

Lemma attempt_fails w :
  exists e w1 evs,
    navigate_attempt city state w = (Raise e, w1) /\
    is_Exception e = true /\
    log w1 = log w ++ evs /\ attempts evs = 1%nat.
Proof.
  unfold navigate_attempt, mbind, M_bind.
  unfold perform at 1.
  destruct (respond _ (driver_get "https://www.redfin.com") (env w)) as [[[]|e] s1] eqn:Hget.
  - unfold perform at 1. cbn [env self_driver log].
    destruct (waits_fail 10 (element_to_be_clickable search_box) s1) as (e & s2 & Hwait).
    rewrite Hwait. exists e. eexists. eexists. split; [reflexivity|].
    split; [exact (session_exceptions _ _ _ _ _ Hwait)|].
    cbn [log]. rewrite <- app_assoc. split; reflexivity.
  - exists e. eexists. eexists. split; [reflexivity|].
    split; [exact (session_exceptions _ _ _ _ _ Hget)|]. split; reflexivity.
Qed.

Lemma retry_fails (attempt : Z) w :
  exists w1 evs,
    try_except
      (r ← navigate_attempt city state; mret (Some r))
      (except_Exception (fun e =>
         logger WARNING
           ("Navigation retry " ++ pretty (attempt + 1) ++ " failed: " ++ exn_msg e);;
         sleep 2;;
         mret None)) w = (Return None, w1) /\
    log w1 = log w ++ evs /\ attempts evs = 1%nat.
Proof.
  destruct (attempt_fails w) as (e & w1 & evs & Hrun & He & Hlog & Hn).
  unfold try_except, mbind at 1, M_bind at 1. rewrite Hrun.
  unfold except_Exception. rewrite He.
  eexists. eexists. split; [reflexivity|]. cbn [log record].
  rewrite Hlog, <- !app_assoc. split; [reflexivity|].
  rewrite attempts_app, Hn. reflexivity.
Qed.

(** C3: when every wait on the session times out (the session raising,
    as Selenium does, only exceptions that derive from [Exception]),
    [navigate_to_city] makes exactly 3 attempts (3 loads of the site's
    root page) and returns [False]; it raises nothing. *)
Theorem navigate_gives_up_after_three (w : world S) :
  exists w' evs,
    navigate_to_city city state w = (Return false, w') /\
    log w' = log w ++ evs /\
    attempts evs = 3%nat.
Proof.
  unfold navigate_to_city. change (seqZ 0 3) with [0; 1; 2].
  cbn [for_each]. unfold mbind at 1, M_bind at 1.
  destruct (retry_fails 0 w) as (w1 & evs1 & -> & Hl1 & Hn1).
  unfold mbind at 1, M_bind at 1.
  destruct (retry_fails 1 w1) as (w2 & evs2 & -> & Hl2 & Hn2).
  unfold mbind at 1, M_bind at 1.
  destruct (retry_fails 2 w2) as (w3 & evs3 & -> & Hl3 & Hn3).
  eexists. eexists. split; [reflexivity|]. cbn [log record].
  rewrite Hl3, Hl2, Hl1, <- !app_assoc. split; [reflexivity|].
  rewrite !attempts_app, Hn1, Hn2, Hn3. reflexivity.
Qed.

End FailingWaits.

(** C7: when [navigate_to_city] returns [False], [get_median_sale_prices]
    raises the [ValueError] "Could not navigate to {city}, {state} housing
    market page." after logging it, returns no mapping and makes no
    further call. *)
Theorem navigation_failure_raises_ValueError (state city : string) (w w1 : world S) :
  navigate_to_city city state w = (Return false, w1) ->
  get_median_sale_prices state city w =
    (Raise (Exn ValueError
              ("Could not navigate to " ++ city ++ ", " ++ state ++ " housing market page.")),
     record (Logged ERROR
               ("ValueError in get_median_sale_prices: Could not navigate to "
                ++ city ++ ", " ++ state ++ " housing market page.")) w1).
Proof.
  intros Hnav. unfold get_median_sale_prices, try_except.
  unfold mbind at 1, M_bind at 1. rewrite Hnav. reflexivity.
Qed.

(** *** Teardown and the written file *)

Lemma extends_weaken (ok1 ok2 : forall A, call A -> bool) (w w' : world S) :
  (forall A c, ok1 A c = true -> ok2 A c = true) ->
  extends ok1 w w' -> extends ok2 w w'.
Proof.
  intros Hok [Hd (evs & Hl & Hall)]. split; [exact Hd|]. exists evs. split; [exact Hl|].
  rewrite forallb_forall in *. intros ev Hev. specialize (Hall ev Hev).
  destruct ev; try done. simpl in *. by apply Hok.
Qed.

Lemma session_only_not_quit A c : session_only A c = true -> not_quit A c = true.
Proof. by destruct c. Qed.

Lemma session_only_not_file A c : session_only A c = true -> not_file A c = true.
Proof. by destruct c. Qed.

Lemma quits_app l1 l2 : quits (l1 ++ l2) = (quits l1 + quits l2)%nat.
Proof. unfold quits. by rewrite List.filter_app, length_app. Qed.

Lemma file_events_app l1 l2 : file_events (l1 ++ l2) = file_events l1 ++ file_events l2.
Proof. apply List.filter_app. Qed.

(** Without a call of [driver.quit()] the count stands. *)
Lemma extends_not_quit (w w' : world S) :
  extends not_quit w w' ->
  self_driver w' = self_driver w /\ quits (log w') = quits (log w).
Proof.
  intros [Hd (evs & -> & Hall)]. split; [exact Hd|].
  rewrite quits_app. assert (quits evs = 0%nat) as ->; [|lia].
  unfold quits. induction evs as [|ev evs IH]; [done|].
  simpl in Hall. apply andb_true_iff in Hall as [Hev Hall].
  simpl. unfold is_quit at 1. rewrite Hev. simpl. by apply IH.
Qed.

(** Without a file operation the file events stand. *)
Lemma extends_not_file (w w' : world S) :
  extends not_file w w' -> file_events (log w') = file_events (log w).
Proof.
  intros [_ (evs & -> & Hall)].
  rewrite file_events_app. assert (file_events evs = []) as ->; [|by rewrite app_nil_r].
  unfold file_events. induction evs as [|ev evs IH]; [done|].
  simpl in Hall. apply andb_true_iff in Hall as [Hev Hall].
  simpl. assert (is_file_event ev = false) as ->; [|by apply IH].
  destruct ev; try done. simpl in *. unfold not_file in Hev.
  by apply negb_true_iff in Hev.
Qed.

Lemma extends_not_file_prints (lines : list string) :
  quits (map Printed lines) = 0%nat /\ file_events (map Printed lines) = [].
Proof. induction lines as [|l lines [IH1 IH2]]; [done|]. split; assumption. Qed.

Lemma quiet_weaken (ok1 ok2 : forall A, call A -> bool) {A} (m : @M S A) :
  (forall A c, ok1 A c = true -> ok2 A c = true) -> quiet ok1 m -> quiet ok2 m.
Proof. intros Hok Hm w. eapply extends_weaken; [exact Hok|apply Hm]. Qed.

(** [main]'s [try] block and its [except] clause never end the session. *)
Lemma quiet_main_try : quiet not_quit main_try.
Proof.
  unfold main_try.
  apply quiet_bind; [quiet_tac|intros state].
  apply quiet_bind; [quiet_tac|intros city].
  apply quiet_bind.
  { apply (quiet_weaken session_only); [exact session_only_not_quit|].
    apply quiet_get_median_sale_prices. }
  intros prices. quiet_tac.
Qed.

Lemma quiet_main_guarded : quiet not_quit main_guarded.
Proof.
  apply quiet_try_except; [apply quiet_main_try|].
  apply quiet_except_Exception. intros. quiet_tac.
Qed.

Lemma quiet_main_finally : quiet not_file main_finally.
Proof. unfold main_finally. quiet_tac. Qed.

(** A setup that returns has set [self.driver] and called neither
    [quit] nor the file system. *)
Lemma init_returns (w w1 : world S) :
  init w = (Return tt, w1) ->
  self_driver w1 = true /\
  quits (log w1) = quits (log w) /\
  file_events (log w1) = file_events (log w).
Proof.
  unfold init, setup_selenium, try_except, mbind, M_bind, set_self_driver,
    perform, logger, emit, record, except_Exception, raise. cbn [env self_driver log].
  destruct (respond _ chromedriver_install (env w)) as [[[]|e1] s1];
    cbn [env self_driver log].
  2:{ destruct (is_Exception e1); discriminate. }
  destruct (respond _ (webdriver_Chrome _ _) s1) as [[[]|e2] s2];
    cbn [env self_driver log].
  2:{ destruct (is_Exception e2); discriminate. }
  destruct (respond _ (execute_script _) s2) as [[[]|e3] s3];
    cbn [env self_driver log].
  2:{ destruct (is_Exception e3); discriminate. }
  intros [= <-]. cbn [self_driver log].
  rewrite !quits_app, !file_events_app. cbn. rewrite !app_nil_r.
  split; [reflexivity|]. split; [lia|reflexivity].
Qed.

(** With [self.driver] set, the [finally] block calls [quit] once. *)
Lemma main_finally_quits (w : world S) :
  self_driver w = true ->
  self_driver (main_finally w).2 = true /\
  quits (log (main_finally w).2) = (quits (log w) + 1)%nat.
Proof.
  intros Hd. unfold main_finally, try_except, mbind, M_bind, mret, M_ret,
    get_self_driver, perform, except_Exception. rewrite Hd.
  destruct (respond _ driver_quit (env w)) as [[[]|e] s1]; cbn [fst snd self_driver log].
  - rewrite quits_app. split; [exact Hd|reflexivity].
  - destruct (is_Exception e); cbn [fst snd self_driver log];
      rewrite quits_app; (split; [exact Hd|reflexivity]).
Qed.

(** With [self.driver] set, the destructor calls [quit] once. *)
Lemma del_quits (w : world S) :
  self_driver w = true ->
  quits (log (del w).2) = (quits (log w) + 1)%nat.
Proof.
  intros Hd. unfold del, try_except, mbind, M_bind, mret, M_ret, get_self_driver,
    perform, except_Exception, logger, emit, record. rewrite Hd.
  destruct (respond _ driver_quit (env w)) as [[[]|e] s1]; cbn [fst snd self_driver log].
  - rewrite !quits_app. cbn. lia.
  - destruct (is_Exception e); cbn [fst snd self_driver log];
      rewrite !quits_app; cbn; lia.
Qed.

Lemma main_after_init (w w1 : world S) :
  init w = (Return tt, w1) ->
  main w = try_finally main_guarded main_finally w1.
Proof. intros Hinit. unfold main. unfold mbind at 1, M_bind at 1. by rewrite Hinit. Qed.

(** C8, as amended: in a run whose setup succeeded, on every path, the
    [finally] block of [main] calls [driver.quit()] exactly once, and the
    destructor, run when the scraper object is released, calls it once
    more: [quit] is called exactly twice in all. *)
Theorem quit_once_in_main_once_in_del (w w1 : world S) :
  init w = (Return tt, w1) ->
  quits (log (main w).2) = (quits (log w) + 1)%nat /\
  quits (log (run w).2) = (quits (log w) + 2)%nat.
Proof.
  intros Hinit. destruct (init_returns w w1 Hinit) as (Hd1 & Hq1 & _).
  assert (self_driver (main w).2 = true /\
          quits (log (main w).2) = (quits (log w) + 1)%nat) as [Hd Hq].
  { rewrite (main_after_init w w1 Hinit). unfold try_finally.
    pose proof (quiet_main_guarded w1) as Hg.
    destruct (main_guarded w1) as [r w2]. cbn [snd] in Hg.
    apply extends_not_quit in Hg as [Hd2 Hq2]. rewrite Hd1 in Hd2.
    destruct (main_finally_quits w2 Hd2) as [Hd3 Hq3].
    destruct (main_finally w2) as [[[]|e] w3]; cbn [snd] in *;
      (split; [exact Hd3|lia]). }
  split; [exact Hq|].
  unfold run. destruct (main w) as [r w2]. cbn [snd] in *.
  pose proof (del_quits w2 Hd) as Hdel.
  destruct (del w2) as [r' w3]. cbn [snd] in *. lia.
Qed.

(** *** The written file *)

Lemma main_try_unfold :
  main_try =
    (state ← perform (input "state: ");
     city ← perform (input "city: ");
     prices ← get_median_sale_prices state city;
     report_and_save state city prices).
Proof. reflexivity. Qed.

Lemma prints_run {A} (items : list A) (body : A -> M unit) :
  (forall x, exists line, body x = print line) ->
  forall w : world S, exists lines,
    for_do items body w =
    (Return tt, World (env w) (self_driver w) (log w ++ map Printed lines)).
Proof.
  intros Hbody. induction items as [|x items IH]; intros w.
  - exists []. simpl. rewrite app_nil_r. by destruct w.
  - cbn [for_do]. destruct (Hbody x) as [line ->].
    unfold mbind, M_bind, print, emit.
    destruct (IH (record (Printed line) w)) as (lines & ->).
    exists (line :: lines). cbn [record env self_driver log map].
    by rewrite <- app_assoc.
Qed.

Lemma report_and_save_files state city prices (w : world S) :
  file_events (log (report_and_save state city prices w).2) =
    file_events (log w) ++ save_events prices (env w).
Proof.
  unfold report_and_save, save_events.
  unfold mbind at 1, M_bind at 1, print at 1, emit.
  unfold mbind at 1, M_bind at 1.
  match goal with
  | |- context [for_do ?items ?body ?w'] =>
      destruct (prints_run items body ltac:(intros [k p]; eexists; reflexivity) w')
        as (lines & ->)
  end.
  cbn [record env self_driver log].
  unfold mbind, M_bind, try_finally, perform, print, emit, record.
  cbn [env self_driver log].
  destruct (respond unit open_median_prices (env w)) as [[[]|e0] s1];
    cbn [fst snd env self_driver log].
  2:{ rewrite !file_events_app. cbn.
      rewrite (proj2 (extends_not_file_prints lines)). by rewrite !app_nil_r. }
  destruct (respond unit (json_dump prices 2) s1) as [r1 s2];
    cbn [fst snd env self_driver log].
  destruct (respond unit file_close s2) as [[[]|e2] s3];
    cbn [fst snd env self_driver log];
    try destruct r1 as [[]|e1]; cbn [fst snd env self_driver log];
    rewrite !file_events_app; cbn;
    rewrite (proj2 (extends_not_file_prints lines));
    rewrite ?app_nil_r, <- ?app_assoc; reflexivity.
Qed.

(** The [except] clause and the [finally] block of [main] touch no file. *)
Lemma guard_and_finally_files (m : M unit) (w : world S) :
  file_events
    (log (try_finally
            (try_except m
               (except_Exception (fun e => print ("Error in main: " ++ exn_msg e))))
            main_finally w).2)
  = file_events (log (m w).2).
Proof.
  unfold try_finally, try_except, except_Exception.
  destruct (m w) as [[[]|e] w1]; cbn [snd].
  - pose proof (quiet_main_finally w1) as Hf.
    destruct (main_finally w1) as [[[]|e'] w2]; cbn [snd] in *;
      exact (extends_not_file _ _ Hf).
  - destruct (is_Exception e).
    + unfold print, emit.
      pose proof (quiet_main_finally (record (Printed ("Error in main: " ++ exn_msg e)) w1))
        as Hf.
      destruct (main_finally _) as [[[]|e'] w2]; cbn [snd] in *;
        rewrite (extends_not_file _ _ Hf); cbn [record log];
        rewrite file_events_app; cbn; by rewrite app_nil_r.
    + pose proof (quiet_main_finally w1) as Hf.
      destruct (main_finally w1) as [[[]|e'] w2]; cbn [snd] in *;
        exact (extends_not_file _ _ Hf).
Qed.


End Session.

(** ** Closed runs *)

Module Runs.

Import Fake CountingFake.

Lemma counting_fake_raises_exceptions A (c : call A) n e n' :
  respond A c n = (Raise e, n') -> is_Exception e = true.
Proof. destruct c; simpl; intros [= <- _]; reflexivity. Qed.

Lemma counting_fake_waits_time_out timeout cond (n : nat) :
  exists e n', respond unit (wait_until timeout cond) n = (Raise e, n').
Proof. eexists. eexists. reflexivity. Qed.

Lemma navigate_gives_up_after_three_witness :
  exists w' evs,
    navigate_to_city "Austin" "TX" (World 0%nat true []) = (Return false, w') /\
    log w' = [] ++ evs /\
    attempts evs = 3%nat.
Proof.
  exact (navigate_gives_up_after_three "Austin" "TX"
           counting_fake_raises_exceptions counting_fake_waits_time_out
           (World 0%nat true [])).
Defined.

(** The counting fake's own count: three waits were asked for, and each
    failure was followed by a pause of 2 seconds. *)
Example counting_fake_counts_three :
  let w' := (navigate_to_city "Austin" "TX" (World 0%nat true [])).2 in
  env w' = 3%nat /\
  List.filter (fun ev => match ev with Slept _ => true | _ => false end) (log w')
    = [Slept 2; Slept 2; Slept 2].
Proof. vm_compute. split; reflexivity. Qed.

Lemma navigation_failure_raises_ValueError_witness :
  get_median_sale_prices "TX" "Austin" offline =
    (Raise (Exn ValueError
              ("Could not navigate to " ++ "Austin" ++ ", " ++ "TX" ++ " housing market page.")),
     record (Logged ERROR
               ("ValueError in get_median_sale_prices: Could not navigate to "
                ++ "Austin" ++ ", " ++ "TX" ++ " housing market page."))
            (navigate_to_city "Austin" "TX" offline).2).
Proof.
  apply (navigation_failure_raises_ValueError "TX" "Austin" offline).
  vm_compute. reflexivity.
Defined.

Lemma online_setup : init online = (Return tt, (init online).2).
Proof. vm_compute. reflexivity. Defined.

Lemma offline_setup : init offline = (Return tt, (init offline).2).
Proof. vm_compute. reflexivity. Defined.

Lemma quit_once_in_main_once_in_del_witness :
  quits (log (main online).2) = (quits (log online) + 1)%nat /\
  quits (log (run online).2) = (quits (log online) + 2)%nat.
Proof.
  exact (quit_once_in_main_once_in_del online (init online).2 online_setup).
Defined.

(** C8 as stated fails: in a run whose setup succeeded, be it one that
    ends well or one whose navigation fails, [driver.quit()] is called
    twice, once by [main]'s [finally] block and once by the destructor. *)
Lemma quit_is_called_twice :
  ((init online).1 = Return tt /\ quits (log (run online).2) = 2%nat) /\
  ((init offline).1 = Return tt /\ quits (log (run offline).2) = 2%nat).
Proof. vm_compute. repeat split. Qed.


(** The two runs in figures: the run that gets its prices opens the
    file, dumps a mapping of 36 keys with indent 2 and closes the file;
    the run whose navigation fails touches no file. *)
Example online_run_writes_offline_run_does_not :
  match file_events (log (main online).2) with
  | [Called c1; Called c2; Called c3] =>
      match c1, c2, c3 with
      | open_file path mode _, json_dump prices indent, file_close =>
          path = "median_prices.json"%string /\ mode = "w"%string /\
          indent = 2 /\ size prices = 36%nat
      | _, _, _ => False
      end
  | _ => False
  end /\
  file_events (log (main offline).2) = [].
Proof. vm_compute. repeat split. Qed.

End Runs.

(** * Further properties *)

(** ** What the program raises and returns *)

Section Outcomes.

Context {S : Type} `{Env S}.

Lemma bind_inv {A B} (m : M A) (f : A -> M B) (w w' : world S) (r : outcome B) :
  (m ≫= f) w = (r, w') ->
  (exists e, m w = (Raise e, w') /\ r = Raise e) \/
  (exists a w1, m w = (Return a, w1) /\ f a w1 = (r, w')).
Proof.
  unfold mbind, M_bind. destruct (m w) as [[a|e] w1]; intros Hr.
  - right. eauto.
  - left. injection Hr as <- <-. eauto.
Qed.

Lemma raises_only_ret p {A} (a : A) : @raises_only S p _ (mret a).
Proof. intros w e w' Hr. discriminate. Qed.

Lemma raises_only_raise p {A} (e : exn) : p e = true -> @raises_only S p _ (@raise S A e).
Proof. intros He w e' w' [= <- _]. exact He. Qed.

Lemma raises_only_bind p {A B} (m : M A) (f : A -> M B) :
  @raises_only S p _ m -> (forall a, @raises_only S p _ (f a)) -> @raises_only S p _ (m ≫= f).
Proof.
  intros Hm Hf w e w' Hr. apply bind_inv in Hr as [(e' & Hm' & [= ->])|(a & w1 & _ & Hf')].
  - exact (Hm _ _ _ Hm').
  - exact (Hf _ _ _ _ Hf').
Qed.

Lemma raises_only_perform {A} (c : call A) :
  exceptions_only -> @raises_only S is_Exception _ (perform c).
Proof.
  intros Hexc w e w'. unfold perform.
  destruct (respond A c (env w)) as [r s'] eqn:Hr. intros [= -> _].
  exact (Hexc _ _ _ _ _ Hr).
Qed.

Lemma raises_only_uniform p a b : @raises_only S p _ (uniform a b).
Proof.
  intros w e w'. unfold uniform. destruct (random_uniform a b (env w)). discriminate.
Qed.

Lemma raises_only_now p : @raises_only S p _ now.
Proof. intros w e w'. unfold now. destruct (datetime_now (env w)). discriminate. Qed.

Lemma raises_only_emit p ev : @raises_only S p _ (emit ev).
Proof. intros w e w'. discriminate. Qed.

Lemma raises_only_get_self_driver p : @raises_only S p _ get_self_driver.
Proof. intros w e w'. discriminate. Qed.

Lemma raises_only_lift p {A} (r : outcome A) :
  (forall e, r = Raise e -> p e = true) -> @raises_only S p _ (lift (S := S) r).
Proof. intros Hr w e w' [= -> _]. by apply Hr. Qed.

Lemma raises_only_try_except p {A} (body : M A) handler :
  @raises_only S p _ body ->
  (forall e h, p e = true -> handler e = Some h -> @raises_only S p _ h) ->
  @raises_only S p _ (try_except body handler).
Proof.
  intros Hb Hh w e w'. unfold try_except.
  destruct (body w) as [[a|e'] w1] eqn:Hbody; [discriminate|].
  pose proof (Hb _ _ _ Hbody) as He'.
  destruct (handler e') as [h|] eqn:Hhandler.
  - apply (Hh e' h He' Hhandler).
  - intros [= <- _]. exact He'.
Qed.

Lemma raises_only_try_finally p {A} (body : M A) final :
  @raises_only S p _ body -> @raises_only S p _ final -> @raises_only S p _ (try_finally body final).
Proof.
  intros Hb Hf w e w'. unfold try_finally.
  destruct (body w) as [r w1] eqn:Hbody.
  destruct (final w1) as [[u|e'] w2] eqn:Hfinal.
  - intros [= -> _]. exact (Hb _ _ _ Hbody).
  - intros [= <- _]. exact (Hf _ _ _ Hfinal).
Qed.

Lemma raises_only_for_each p {A R} (xs : list A) (body : A -> M (option R)) after :
  (forall x, @raises_only S p _ (body x)) -> @raises_only S p _ after ->
  @raises_only S p _ (for_each xs body after).
Proof.
  intros Hb Ha. induction xs as [|x xs IH]; [exact Ha|].
  cbn [for_each]. apply raises_only_bind; [apply Hb|].
  intros [v|]; [apply raises_only_ret|exact IH].
Qed.

Lemma raises_only_for_do p {A} (xs : list A) (body : A -> M unit) :
  (forall x, @raises_only S p _ (body x)) -> @raises_only S p _ (for_do xs body).
Proof.
  intros Hb. induction xs as [|x xs IH]; [apply raises_only_ret|].
  cbn [for_do]. apply raises_only_bind; [apply Hb|]. intros _. exact IH.
Qed.

Lemma returns_only_ret {A} (q : A -> Prop) (a : A) : q a -> @returns_only S _ q (mret a).
Proof. intros Hq w a' w' [= <- _]. exact Hq. Qed.

Lemma returns_only_bind {A B} (q : B -> Prop) (m : M A) (f : A -> M B) :
  (forall a, @returns_only S _ q (f a)) -> @returns_only S _ q (m ≫= f).
Proof.
  intros Hf w b w' Hr. apply bind_inv in Hr as [(e & _ & [=])|(a & w1 & _ & Hf')].
  exact (Hf _ _ _ _ Hf').
Qed.

End Outcomes.

Ltac raises_tac :=
  repeat first
    [ apply raises_only_ret | apply raises_only_uniform | apply raises_only_now
    | apply raises_only_emit | apply raises_only_get_self_driver
    | apply raises_only_perform; assumption
    | apply raises_only_for_do; intros
    | apply raises_only_for_each; intros
    | apply raises_only_try_finally
    | apply raises_only_bind; intros
    | match goal with
      | |- raises_only _ (if ?b then _ else _) => destruct b
      | |- raises_only _ (let '(_, _) := ?p in _) => destruct p
      end ].

(** ** Navigation on any session *)

Section NavigateAlways.

Context {S : Type} `{Env S}.

Lemma navigate_attempt_unfold city state :
  navigate_attempt city state =
    (perform (driver_get "https://www.redfin.com");; navigate_after_load city state).
Proof. reflexivity. Qed.

Lemma navigate_to_city_unfold city state :
  navigate_to_city city state =
    for_each (seqZ 0 3) (retry_body city state)
      (logger ERROR "Failed to navigate to the city after 3 attempts.";; mret false).
Proof. reflexivity. Qed.

(** A page address that ends in /housing-market is not the root page. *)
Lemma housing_market_not_site_load (x : string) :
  not_site_load unit (driver_get (x ++ "/housing-market")) = true.
Proof.
  unfold not_site_load, is_site_load. apply negb_true_iff, String.eqb_neq.
  intros Heq.
  do 7 (destruct x as [|? x]; [discriminate|]).
  destruct x as [|? x]; [discriminate|].
  do 14 (destruct x as [|? x]; [discriminate|]).
  destruct x; discriminate.
Qed.

Lemma extends_not_site_load (w w' : world S) :
  extends not_site_load w w' ->
  exists evs, log w' = log w ++ evs /\ attempts evs = 0%nat.
Proof.
  intros [_ (evs & Hl & Hall)]. exists evs. split; [exact Hl|].
  unfold attempts. clear Hl. induction evs as [|ev evs IH]; [done|].
  simpl in Hall. apply andb_true_iff in Hall as [Hev Hall]. simpl.
  assert (is_site_load ev = false) as ->; [|by apply IH].
  destruct ev as [A c| | | | |]; try done.
  simpl in Hev. unfold not_site_load in Hev. by apply negb_true_iff in Hev.
Qed.

Lemma quiet_navigate_after_load city state :
  quiet not_site_load (navigate_after_load city state).
Proof.
  unfold navigate_after_load. quiet_tac.
  apply quiet_perform, housing_market_not_site_load.
Qed.

Lemma returns_true_navigate_attempt city state :
  returns_only (fun b => b = true) (navigate_attempt city state).
Proof.
  unfold navigate_attempt.
  repeat (apply returns_only_bind; intros).
  by apply returns_only_ret.
Qed.

Section OnlyExceptions.

Hypothesis session_exceptions : exceptions_only.

Lemma raises_only_navigate_attempt city state :
  raises_only is_Exception (navigate_attempt city state).
Proof. unfold navigate_attempt. raises_tac. Qed.

(** An attempt loads the root page once, and either returns [True] or
    raises an exception that the loop catches. *)
Lemma navigate_attempt_shape city state (w : world S) :
  exists r w1 evs,
    navigate_attempt city state w = (r, w1) /\
    log w1 = log w ++ evs /\
    attempts evs = 1%nat /\
    (r = Return true \/ exists e, r = Raise e /\ is_Exception e = true).
Proof.
  destruct (navigate_attempt city state w) as [r w1] eqn:Hrun.
  exists r, w1.
  assert (r = Return true \/ exists e, r = Raise e /\ is_Exception e = true) as Hr.
  { destruct r as [b|e].
    - left. f_equal. exact (returns_true_navigate_attempt city state _ _ _ Hrun).
    - right. exists e. split; [reflexivity|].
      exact (raises_only_navigate_attempt city state _ _ _ Hrun). }
  rewrite navigate_attempt_unfold in Hrun.
  unfold mbind at 1, M_bind at 1, perform at 1 in Hrun.
  destruct (respond _ (driver_get "https://www.redfin.com") (env w)) as [[[]|e] s1].
  - pose proof (quiet_navigate_after_load city state
                  (World s1 (self_driver w)
                     (log w ++ [Called (driver_get "https://www.redfin.com")]))) as Hq.
    rewrite Hrun in Hq. apply extends_not_site_load in Hq as (evs & Hl & Hn).
    cbn [snd log] in Hl.
    exists (Called (driver_get "https://www.redfin.com") :: evs).
    split; [reflexivity|]. split.
    + rewrite Hl, <- app_assoc. reflexivity.
    + split; [|exact Hr]. change (attempts evs = 0%nat) in Hn.
      unfold attempts in *. simpl. by rewrite Hn.
  - injection Hrun as <- <-.
    exists [Called (driver_get "https://www.redfin.com")].
    split; [reflexivity|]. split; [reflexivity|]. split; [reflexivity|exact Hr].
Qed.

(** One turn of the retry loop never raises: it ends the loop with
    [True] or asks for the next attempt. *)
Lemma retry_body_shape city state (attempt : Z) (w : world S) :
  exists r w1 evs,
    retry_body city state attempt w = (Return r, w1) /\
    log w1 = log w ++ evs /\
    attempts evs = 1%nat /\
    (r = Some true \/ r = None).
Proof.
  destruct (navigate_attempt_shape city state w) as (r0 & w1 & evs & Hrun & Hl & Hn & Hr).
  unfold retry_body, try_except. unfold mbind at 1, M_bind at 1. rewrite Hrun.
  destruct Hr as [->|(e & -> & He)].
  - exists (Some true), w1, evs. repeat split; auto.
  - unfold except_Exception. rewrite He.
    eexists None, _, _. split; [reflexivity|]. cbn [log record].
    rewrite Hl, <- !app_assoc. split; [reflexivity|]. split; [|by right].
    rewrite attempts_app, Hn. reflexivity.
Qed.

(** On any session that raises only exceptions deriving from
    [Exception], [navigate_to_city] raises nothing; it makes at least one
    and at most three attempts, stops at the first one that succeeds, and
    returns [False] only after three. *)
Theorem navigate_never_raises (city state : string) (w : world S) :
  exists b w' evs,
    navigate_to_city city state w = (Return b, w') /\
    log w' = log w ++ evs /\
    (1 <= attempts evs <= 3)%nat /\
    (b = false -> attempts evs = 3%nat).
Proof.
  rewrite navigate_to_city_unfold. change (seqZ 0 3) with [0; 1; 2].
  cbn [for_each]. unfold mbind at 1, M_bind at 1.
  destruct (retry_body_shape city state 0 w) as (r1 & w1 & evs1 & -> & Hl1 & Hn1 & Hr1).
  destruct Hr1 as [-> | ->].
  { exists true, w1, evs1. repeat split; [exact Hl1|lia|lia|discriminate]. }
  unfold mbind at 1, M_bind at 1.
  destruct (retry_body_shape city state 1 w1) as (r2 & w2 & evs2 & -> & Hl2 & Hn2 & Hr2).
  destruct Hr2 as [-> | ->].
  { exists true, w2, (evs1 ++ evs2). rewrite Hl2, Hl1, <- app_assoc, attempts_app.
    repeat split; [lia|lia|discriminate]. }
  unfold mbind at 1, M_bind at 1.
  destruct (retry_body_shape city state 2 w2) as (r3 & w3 & evs3 & -> & Hl3 & Hn3 & Hr3).
  destruct Hr3 as [-> | ->].
  { exists true, w3, (evs1 ++ evs2 ++ evs3).
    rewrite Hl3, Hl2, Hl1, <- !app_assoc, !attempts_app.
    repeat split; [lia|lia|discriminate]. }
  eexists false, _, _. split; [reflexivity|]. cbn [log record].
  rewrite Hl3, Hl2, Hl1, <- !app_assoc. split; [reflexivity|].
  rewrite !attempts_app, Hn1, Hn2, Hn3. cbn. split; [lia|reflexivity].
Qed.

End OnlyExceptions.

End NavigateAlways.

(** ** Navigation on a session where every call returns *)

Section NavigateThrough.

Context {S : Type} `{Env S}.

Hypothesis session_returns : always_returns.

Lemma perform_returns {A} (c : call A) (w : world S) :
  exists a w',
    perform c w = (Return a, w') /\
    self_driver w' = self_driver w /\
    log w' = log w ++ [Called c].
Proof.
  unfold perform. destruct (session_returns A c (env w)) as (a & s' & ->).
  eexists a, _. repeat split.
Qed.

Lemma bind_return {A B} (m : M A) (f : A -> M B) (w w1 : world S) (a : A) :
  m w = (Return a, w1) -> (m ≫= f) w = f a w1.
Proof. intros Hm. unfold mbind, M_bind. by rewrite Hm. Qed.

Lemma type_char_run (c : ascii) (w : world S) :
  exists d w',
    (perform (element_send_keys search_box (Char c));;
     d ← uniform (1 # 10) (2 # 10);
     sleep d) w = (Return tt, w') /\
    self_driver w' = self_driver w /\
    log w' = log w ++ typed c d.
Proof.
  destruct (perform_returns (element_send_keys search_box (Char c)) w)
    as ([] & w1 & Hp & Hd1 & Hl1).
  rewrite (bind_return _ _ _ _ _ Hp).
  unfold mbind, M_bind, uniform, sleep, emit, record.
  destruct (random_uniform (1 # 10) (2 # 10) (env w1)) as [d s2].
  cbn [env self_driver log].
  eexists d, _. split; [reflexivity|]. cbn [self_driver log].
  split; [exact Hd1|]. rewrite Hl1, <- !app_assoc. reflexivity.
Qed.

Lemma typing_run (cs : list ascii) : forall w : world S,
  exists ds w',
    for_do cs (fun char =>
      perform (element_send_keys search_box (Char char));;
      d ← uniform (1 # 10) (2 # 10);
      sleep d) w = (Return tt, w') /\
    length ds = length cs /\
    self_driver w' = self_driver w /\
    log w' = log w ++ typing (zip cs ds).
Proof.
  induction cs as [|c cs IH]; intros w.
  - exists [], w. repeat split. simpl. by rewrite app_nil_r.
  - cbn [for_do].
    destruct (type_char_run c w) as (d & w1 & Hc & Hd1 & Hl1).
    rewrite (bind_return _ _ _ _ _ Hc).
    destruct (IH w1) as (ds & w' & -> & Hlen & Hd & Hl).
    exists (d :: ds), w'. split; [reflexivity|]. split; [simpl; by rewrite Hlen|].
    split; [congruence|].
    rewrite Hl, Hl1. cbn [zip zip_with typing flat_map fst snd].
    rewrite <- !app_assoc. reflexivity.
Qed.

(** [s.rstrip(c)] does not end with [c]. *)
Lemma rstrip_char_end (c : ascii) (s : string) :
  ends_with c (PyStr.rstrip_char c s) = false.
Proof.
  unfold ends_with, PyStr.rstrip_char, PyStr.rstrip_by, PyStr.chars, PyStr.text.
  rewrite list_ascii_of_string_of_list_ascii, rev_involutive.
  induction (rev (list_ascii_of_string s)) as [|x l IH]; [reflexivity|].
  simpl. destruct (Ascii.eqb c x) eqn:Hcx; [exact IH|exact Hcx].
Qed.


End NavigateThrough.

(** ** A setup that fails *)

Section SetupFails.

Context {S : Type} `{Env S}.

(** Without a browser the destructor does nothing. *)
Lemma del_without_driver (w : world S) :
  self_driver w = false -> del w = (Return tt, w).
Proof.
  intros Hd. unfold del, try_except, mbind, M_bind, get_self_driver. rewrite Hd.
  reflexivity.
Qed.

(** When setup fails, [main] raises the setup error at once: no prompt
    is shown, no file touched, and [main] itself never calls
    [driver.quit()]; the browser is quit, once and by the destructor,
    exactly when it had been launched; an error deriving from [Exception]
    has been logged as "Error setting up Selenium: ...". *)
Theorem setup_failure_ends_run (w w1 : world S) (e : exn) :
  init w = (Raise e, w1) ->
  main w = (Raise e, w1) /\
  prompts (log w1) = prompts (log w) /\
  file_events (log w1) = file_events (log w) /\
  quits (log w1) = quits (log w) /\
  self_driver w1 = launched (env w) /\
  (run w).1 = Raise e /\
  quits (log (run w).2) = (quits (log w) + (if launched (env w) then 1 else 0))%nat /\
  (is_Exception e = true ->
   exists evs,
     log w1 = log w ++ evs ++ [Logged ERROR ("Error setting up Selenium: " ++ exn_msg e)]).
Proof.
  intros Hinit.
  assert (main w = (Raise e, w1)) as Hmain.
  { unfold main. unfold mbind at 1, M_bind at 1. by rewrite Hinit. }
  assert (prompts (log w1) = prompts (log w) /\
          file_events (log w1) = file_events (log w) /\
          quits (log w1) = quits (log w) /\
          self_driver w1 = launched (env w) /\
          (is_Exception e = true ->
           exists evs,
             log w1 = log w ++ evs ++
               [Logged ERROR ("Error setting up Selenium: " ++ exn_msg e)]))
    as (Hp & Hf & Hq & Hd & Hlog).
  { revert Hinit.
    unfold init, setup_selenium, try_except, mbind, M_bind, set_self_driver,
      perform, logger, emit, record, except_Exception, raise, launched.
    cbn [env self_driver log].
    destruct (respond _ chromedriver_install (env w)) as [[[]|e1] s1];
      cbn [env self_driver log].
    2:{ destruct (is_Exception e1) eqn:He1; intros [= <- <-]; cbn [self_driver log];
        unfold prompts; rewrite !quits_app, !file_events_app, !List.filter_app, !length_app;
        cbn; rewrite ?app_nil_r; repeat split; try lia; try discriminate;
        try congruence.
        intros _. exists [Called chromedriver_install]. by rewrite <- !app_assoc. }
    destruct (respond _ (webdriver_Chrome _ _) s1) as [[[]|e2] s2];
      cbn [env self_driver log].
    2:{ destruct (is_Exception e2) eqn:He2; intros [= <- <-]; cbn [self_driver log];
        unfold prompts; rewrite !quits_app, !file_events_app, !List.filter_app, !length_app;
        cbn; rewrite ?app_nil_r; repeat split; try lia; try discriminate;
        try congruence.
        intros _. eexists [_; _]. rewrite <- !app_assoc. reflexivity. }
    destruct (respond _ (execute_script _) s2) as [[[]|e3] s3];
      cbn [env self_driver log].
    1:{ discriminate. }
    destruct (is_Exception e3) eqn:He3; intros [= <- <-]; cbn [self_driver log];
      unfold prompts; rewrite !quits_app, !file_events_app, !List.filter_app, !length_app;
      cbn; rewrite ?app_nil_r; repeat split; try lia; try discriminate;
      try congruence.
    intros _. eexists [_; _; _]. rewrite <- !app_assoc. reflexivity. }
  split; [exact Hmain|]. split; [exact Hp|]. split; [exact Hf|]. split; [exact Hq|].
  split; [exact Hd|].
  unfold run. rewrite Hmain.
  destruct (launched (env w)) eqn:Hl.
  - pose proof (del_quits w1 Hd) as Hdel.
    destruct (del w1) as [r' w2]. cbn [fst snd] in *.
    split; [reflexivity|]. split; [lia|exact Hlog].
  - rewrite (del_without_driver w1 Hd). cbn [fst snd].
    split; [reflexivity|]. split; [lia|exact Hlog].
Qed.

End SetupFails.

(** ** Errors in [get_median_sale_prices] and in [main] *)

Section Errors.

Context {S : Type} `{Env S}.

(** [float] raises [ValueError] and nothing else. *)
Lemma py_float_raises s e : py_float s = Raise e -> exn_cls e = ValueError.
Proof. unfold py_float. destruct (FloatText.parse s); [discriminate|]. by intros [= <-]. Qed.

Lemma convert_price_text_raises s e :
  convert_price_text s = Raise e -> exn_cls e = ValueError.
Proof.
  unfold convert_price_text. destruct (PyStr.contains _ _).
  - destruct (py_float _) as [x|e'] eqn:Hf; [discriminate|].
    intros [= <-]. exact (py_float_raises _ _ Hf).
  - apply py_float_raises.
Qed.

Lemma sub_days_raises t n e : sub_days t n = Raise e -> exn_cls e = OverflowError.
Proof.
  unfold sub_days. destruct (_ && _).
  - destruct (ord2ymd _) as [[y m] d]. discriminate.
  - by intros [= <-].
Qed.

Lemma class_is_Exception e :
  exn_cls e = ValueError \/ exn_cls e = OverflowError -> is_Exception e = true.
Proof. unfold is_Exception. by intros [-> | ->]. Qed.

(** What the [try] block of [get_median_sale_prices] raises comes out of
    the function unchanged; an exception deriving from [Exception] is
    logged first, at ERROR, with a prefix that tells a [ValueError] from
    the rest. *)
Lemma get_median_sale_prices_unfold state city :
  get_median_sale_prices state city =
    try_except
      (ok ← navigate_to_city city state;
       (if negb ok then raise (navigation_error city state) else mret tt);;
       perform (wait_until 20 (presence_of_element_located price_xpath));;
       raw ← perform (element_text price_xpath);
       let price_text := PyStr.strip raw in
       logger INFO ("Found current price: " ++ price_text);;
       current_price ← lift (convert_price_text price_text);
       generate_series current_price)
      (fun e : exn =>
         if is_ValueError e then
           Some (logger ERROR ("ValueError in get_median_sale_prices: " ++ exn_msg e);;
                 raise e)
         else
           except_Exception (fun e =>
             logger ERROR ("Error in get_median_sale_prices: " ++ exn_msg e);;
             raise e) e).
Proof. reflexivity. Qed.

(** A price text that cannot be read as a number: the function raises
    [ValueError] having logged the text found and the error, without
    reading the clock or drawing a perturbation. *)
Theorem unreadable_price_raises_ValueError
    (state city raw : string) (w w1 w2 w3 : world S) (e : exn) :
  navigate_to_city city state w = (Return true, w1) ->
  perform (wait_until 20 (presence_of_element_located price_xpath)) w1 = (Return tt, w2) ->
  perform (element_text price_xpath) w2 = (Return raw, w3) ->
  convert_price_text (PyStr.strip raw) = Raise e ->
  exn_cls e = ValueError /\
  get_median_sale_prices state city w =
    (Raise e,
     World (env w3) (self_driver w3)
       (log w3 ++ [Logged INFO ("Found current price: " ++ PyStr.strip raw);
                   Logged ERROR ("ValueError in get_median_sale_prices: " ++ exn_msg e)])).
Proof.
  intros Hnav Hwait Htext Hconv.
  pose proof (convert_price_text_raises _ _ Hconv) as Hcls.
  split; [exact Hcls|].
  rewrite get_median_sale_prices_unfold. unfold try_except.
  rewrite (bind_return _ _ _ _ _ Hnav). cbn [negb].
  unfold mbind at 1, M_bind at 1, mret at 1, M_ret at 1.
  rewrite (bind_return _ _ _ _ _ Hwait), (bind_return _ _ _ _ _ Htext).
  cbv zeta. unfold mbind at 1, M_bind at 1, logger at 1, emit at 1.
  unfold mbind at 1, M_bind at 1, lift at 1. rewrite Hconv.
  unfold is_ValueError. rewrite Hcls.
  unfold mbind, M_bind, logger, emit, raise, record. cbn [env self_driver log].
  rewrite <- app_assoc. reflexivity.
Qed.

(** When navigation goes through, the price element is found and its
    text reads as a number, the function returns the series generated
    around that number: 36 stores, keyed by the dates and valued by the
    draws that follow the clock reading. *)
Theorem readable_price_gives_series
    (state city raw : string) (w w1 w2 w3 : world S) (P : pyfloat) :
  navigate_to_city city state w = (Return true, w1) ->
  perform (wait_until 20 (presence_of_element_located price_xpath)) w1 = (Return tt, w2) ->
  perform (element_text price_xpath) w2 = (Return raw, w3) ->
  convert_price_text (PyStr.strip raw) = Return P ->
  anchor_ok (anchor_of w3) ->
  exists w',
    get_median_sale_prices state city w =
      (Return (foldl (store P (anchor_of w3)) ∅ (zip (seqZ 0 36) (draws_of w3))), w') /\
    self_driver w' = self_driver w3 /\
    log w' = log w3 ++ Logged INFO ("Found current price: " ++ PyStr.strip raw)
                    :: Clock (anchor_of w3) :: map drew (draws_of w3).
Proof.
  intros Hnav Hwait Htext Hconv Hok.
  set (w4 := record (Logged INFO ("Found current price: " ++ PyStr.strip raw)) w3).
  destruct (generate_series_run P w4 Hok) as (w' & Hgen & Hd & Hl).
  exists w'. split; [|split; [exact Hd|]].
  - rewrite get_median_sale_prices_unfold. unfold try_except.
    rewrite (bind_return _ _ _ _ _ Hnav). cbn [negb].
    unfold mbind at 1, M_bind at 1, mret at 1, M_ret at 1.
    rewrite (bind_return _ _ _ _ _ Hwait), (bind_return _ _ _ _ _ Htext).
    cbv zeta. unfold mbind at 1, M_bind at 1, logger at 1, emit at 1.
    unfold mbind at 1, M_bind at 1, lift at 1. rewrite Hconv.
    fold w4. rewrite Hgen. reflexivity.
  - rewrite Hl. unfold w4. cbn [record log]. rewrite <- app_assoc. reflexivity.
Qed.

Section OnlyExceptions.

Hypothesis session_exceptions : exceptions_only.

Lemma raises_only_navigate_to_city city state :
  raises_only is_Exception (navigate_to_city city state).
Proof.
  rewrite navigate_to_city_unfold. apply raises_only_for_each; [|raises_tac].
  intros attempt. unfold retry_body. apply raises_only_try_except.
  - apply raises_only_bind; [|intros; apply raises_only_ret].
    by apply raises_only_navigate_attempt.
  - intros e h _. unfold except_Exception. destruct (is_Exception e); [|discriminate].
    intros [= <-]. raises_tac.
Qed.

Lemma raises_only_series_loop P t indices : forall m,
  raises_only is_Exception (series_loop (S := S) P t indices m).
Proof.
  induction indices as [|i rest IH]; intros m; [apply raises_only_ret|].
  cbn [series_loop]. apply raises_only_bind; [|exact IH].
  unfold series_step. apply raises_only_bind.
  - apply raises_only_lift. intros e He. apply class_is_Exception. right.
    exact (sub_days_raises _ _ _ He).
  - intros d. raises_tac.
Qed.

Lemma raises_only_get_median_sale_prices state city :
  raises_only is_Exception (get_median_sale_prices state city).
Proof.
  rewrite get_median_sale_prices_unfold. apply raises_only_try_except.
  - apply raises_only_bind; [apply raises_only_navigate_to_city|]. intros ok.
    apply raises_only_bind.
    { destruct ok; cbn [negb]; [apply raises_only_ret|].
      by apply raises_only_raise. }
    intros _. apply raises_only_bind; [by apply raises_only_perform|]. intros _.
    apply raises_only_bind; [by apply raises_only_perform|]. intros raw. cbv zeta.
    apply raises_only_bind; [apply raises_only_emit|]. intros _.
    apply raises_only_bind.
    { apply raises_only_lift. intros e He. apply class_is_Exception. left.
      exact (convert_price_text_raises _ _ He). }
    intros P. unfold generate_series.
    apply raises_only_bind; [apply raises_only_now|]. intros t.
    apply raises_only_series_loop.
  - intros e h He. destruct (is_ValueError e).
    + intros [= <-]. apply raises_only_bind; [apply raises_only_emit|].
      intros _. by apply raises_only_raise.
    + unfold except_Exception. rewrite He. intros [= <-].
      apply raises_only_bind; [apply raises_only_emit|].
      intros _. by apply raises_only_raise.
Qed.

Lemma raises_only_main_try : raises_only is_Exception main_try.
Proof.
  unfold main_try.
  apply raises_only_bind; [by apply raises_only_perform|]. intros state.
  apply raises_only_bind; [by apply raises_only_perform|]. intros city.
  apply raises_only_bind; [apply raises_only_get_median_sale_prices|]. intros prices.
  raises_tac.
Qed.

(** The [finally] block prints nothing and, on such a session, returns. *)
Lemma main_finally_returns (w : world S) :
  (main_finally w).1 = Return tt /\
  printed (log (main_finally w).2) = printed (log w).
Proof.
  unfold main_finally, try_except, mbind, M_bind, mret, M_ret, get_self_driver,
    perform, except_Exception.
  destruct (self_driver w); [|split; reflexivity].
  destruct (respond _ driver_quit (env w)) as [[[]|e] s1] eqn:Hq; cbn [fst snd log].
  - split; [reflexivity|]. unfold printed. rewrite omap_app. cbn. by rewrite app_nil_r.
  - rewrite (session_exceptions _ _ _ _ _ Hq). cbn [fst snd log].
    split; [reflexivity|]. unfold printed. rewrite omap_app. cbn. by rewrite app_nil_r.
Qed.

(** Once setup has succeeded, on a session that raises only exceptions
    deriving from [Exception], [main] returns normally whatever fails:
    what its [try] block raises is reported as one last printed line,
    "Error in main: ..." with the error's message, and is not raised
    again. *)
Theorem main_reports_and_returns (w w1 : world S) :
  init w = (Return tt, w1) ->
  (main w).1 = Return tt /\
  (run w).1 = Return tt /\
  forall e w2, main_try w1 = (Raise e, w2) ->
    printed (log (main w).2) = printed (log w2) ++ [("Error in main: " ++ exn_msg e)%string].
Proof.
  intros Hinit. rewrite (main_after_init w w1 Hinit).
  assert ((try_finally main_guarded main_finally w1).1 = Return tt /\
          forall e w2, main_try w1 = (Raise e, w2) ->
            printed (log (try_finally main_guarded main_finally w1).2)
              = printed (log w2) ++ [("Error in main: " ++ exn_msg e)%string])
    as [Hret Hline].
  { unfold try_finally, main_guarded, try_except.
    destruct (main_try w1) as [[[]|e] w2] eqn:Htry.
    - destruct (main_finally_returns w2) as [Hf _].
      destruct (main_finally w2) as [[[]|e'] w3]; cbn [fst] in *; [|discriminate].
      split; [reflexivity|]. intros e w2' [=].
    - pose proof (raises_only_main_try _ _ _ Htry) as He.
      unfold except_Exception. rewrite He. unfold print, emit.
      destruct (main_finally_returns (record (Printed ("Error in main: " ++ exn_msg e)) w2))
        as [Hf Hp].
      destruct (main_finally _) as [[[]|e'] w3]; cbn [fst snd] in *; [|discriminate].
      split; [reflexivity|]. intros e0 w2' [= <- <-].
      rewrite Hp. cbn [record log]. unfold printed. rewrite omap_app. reflexivity. }
  split; [exact Hret|]. split; [|exact Hline].
  unfold run. rewrite (main_after_init w w1 Hinit).
  destruct (try_finally main_guarded main_finally w1) as [r w2]. cbn [fst] in Hret.
  destruct (del w2). cbn [fst]. exact Hret.
Qed.

End OnlyExceptions.

End Errors.

(** ** The printed series *)

Section PrintedSeries.

Context {S : Type} `{Env S}.

Lemma insert_sorted_perm kv l : Permutation (Console.insert_sorted kv l) (kv :: l).
Proof.
  induction l as [|kv' l IH]; [reflexivity|].
  cbn [Console.insert_sorted]. destruct (String.leb kv.1 kv'.1); [reflexivity|].
  rewrite IH. apply perm_swap.
Qed.

Lemma insert_sorted_HdRel a kv l :
  key_le a kv -> HdRel key_le a l -> HdRel key_le a (Console.insert_sorted kv l).
Proof.
  intros Ha Hl. destruct l as [|kv' l]; cbn [Console.insert_sorted].
  - by constructor.
  - destruct (String.leb kv.1 kv'.1); constructor; [exact Ha|].
    by inversion Hl.
Qed.

Lemma insert_sorted_Sorted kv l :
  Sorted key_le l -> Sorted key_le (Console.insert_sorted kv l).
Proof.
  induction l as [|kv' l IH]; intros Hl; cbn [Console.insert_sorted].
  - repeat constructor.
  - destruct (String.leb kv.1 kv'.1) eqn:Hle.
    + constructor; [exact Hl|]. by constructor.
    + inversion Hl as [|? ? Hs Hhd]; subst. constructor; [by apply IH|].
      apply insert_sorted_HdRel; [|exact Hhd].
      unfold key_le. destruct (String.leb_total kv.1 kv'.1) as [Hc|Hc]; [congruence|exact Hc].
Qed.

(** [sorted(prices.items())] holds every item of the mapping once, in
    ascending order of key. *)
Lemma sorted_items_spec (prices : gmap string pyfloat) :
  Permutation (Console.sorted_items prices) (map_to_list prices) /\
  Sorted key_le (Console.sorted_items prices) /\
  NoDup (Console.sorted_items prices).*1.
Proof.
  unfold Console.sorted_items.
  assert (forall l, Permutation (foldr Console.insert_sorted [] l) l) as Hperm.
  { induction l as [|kv l IH]; [reflexivity|]. cbn [foldr].
    rewrite insert_sorted_perm. by rewrite IH. }
  split; [apply Hperm|]. split.
  - induction (map_to_list prices) as [|kv l IH]; [constructor|].
    cbn [foldr]. by apply insert_sorted_Sorted.
  - rewrite (Hperm (map_to_list prices)). apply NoDup_fst_map_to_list.
Qed.

Lemma price_lines_run (items : list (string * pyfloat)) : forall w : world S,
  for_do items (fun '(date_key, price) =>
    let formatted_price := ("$" ++ Console.format_2f price)%string in
    print (date_key ++ ": " ++ formatted_price)) w =
  (Return tt,
   World (env w) (self_driver w) (log w ++ map (fun kv => Printed (price_line kv)) items)).
Proof.
  induction items as [|[k p] items IH]; intros w.
  - simpl. rewrite app_nil_r. by destruct w.
  - cbn [for_do]. unfold mbind, M_bind, print at 1, emit. rewrite IH.
    cbn [record env self_driver log map]. by rewrite <- app_assoc.
Qed.

Lemma printed_app l1 l2 : printed (l1 ++ l2) = printed l1 ++ printed l2.
Proof. apply omap_app. Qed.

Lemma printed_price_lines (items : list (string * pyfloat)) :
  printed (map (fun kv => Printed (price_line kv)) items) = map price_line items.
Proof. induction items as [|kv items IH]; [done|]. cbn. by rewrite <- IH. Qed.


End PrintedSeries.

(** ** The printed amount read back *)

Section ReadBack.

Import PyStr FloatText.

Ltac bool_lia :=
  rewrite ?andb_true_iff, ?orb_true_iff, ?andb_false_iff, ?orb_false_iff,
    ?Z.leb_le, ?Z.ltb_lt, ?Z.eqb_eq, ?Z.leb_gt, ?Z.ltb_ge, ?Z.eqb_neq in *; lia.

Lemma is_digit_code c : is_digit c = true -> 48 <= code c <= 57.
Proof. unfold is_digit. bool_lia. Qed.

(** A digit differs from any character that is none. *)
Lemma digit_differs c d :
  is_digit c = true -> is_digit d = false ->
  Ascii.eqb c d = false /\ Ascii.eqb d c = false.
Proof.
  intros Hc Hd. split; apply Ascii.eqb_neq; intros ->; congruence.
Qed.

Lemma digit_not_c_space c : is_digit c = true -> is_c_space c = false.
Proof.
  intros Hc%is_digit_code. unfold is_c_space.
  destruct (_ || _) eqn:E; [|reflexivity]. exfalso. revert E. bool_lia.
Qed.

Lemma digit_is_ascii c : is_digit c = true -> (code c <? 128) = true.
Proof. intros Hc%is_digit_code. bool_lia. Qed.

Lemma digits_value_snoc ds c :
  digits_value (ds ++ [c]) = 10 * digits_value ds + digit_val c.
Proof. unfold digits_value. by rewrite fold_left_app. Qed.

Lemma span_digits_all ds rest :
  forallb is_digit ds = true ->
  match rest with c :: _ => is_digit c = false | [] => True end ->
  span_digits (ds ++ rest) = (ds, rest).
Proof.
  intros Hds Hrest. induction ds as [|d ds IH]; simpl in *.
  - destruct rest as [|c r]; [reflexivity|]. simpl. by rewrite Hrest.
  - apply andb_true_iff in Hds as [-> Hds]. by rewrite (IH Hds).
Qed.

(** *** The digits of a number *)

Lemma pretty_N_char_digit (k : N) :
  (k < 10)%N ->
  is_digit (pretty_N_char k) = true /\ digit_val (pretty_N_char k) = Z.of_N k.
Proof.
  intros Hk.
  assert (k = 0 \/ k = 1 \/ k = 2 \/ k = 3 \/ k = 4 \/ k = 5 \/ k = 6 \/ k = 7
          \/ k = 8 \/ k = 9)%N as Hc by lia.
  repeat destruct Hc as [-> | Hc]; try subst k; split; reflexivity.
Qed.

Lemma pretty_N_go_digits (x : N) : forall s,
  exists ds,
    chars (pretty_N_go x s) = ds ++ chars s /\
    forallb is_digit ds = true /\
    digits_value ds = Z.of_N x /\
    ((0 < x)%N -> ds <> []).
Proof.
  induction (N.lt_wf_0 x) as [x _ IH]. intros s.
  destruct (N.eq_dec x 0%N) as [-> | Hx].
  - exists []. rewrite pretty_N_go_0. repeat split; lia.
  - rewrite pretty_N_go_step by lia.
    destruct (IH (x `div` 10)%N) with (s := String (pretty_N_char (x `mod` 10)) s)
      as (ds & Hch & Hds & Hval & _).
    { apply N.div_lt; lia. }
    destruct (pretty_N_char_digit (x `mod` 10)%N) as [Hd Hv].
    { apply N.mod_lt. lia. }
    exists (ds ++ [pretty_N_char (x `mod` 10)]). split; [|split; [|split]].
    + rewrite Hch. change (chars (String ?c s)) with (c :: chars s).
      by rewrite <- app_assoc.
    + rewrite forallb_app, Hds. simpl. by rewrite Hd.
    + rewrite digits_value_snoc, Hval, Hv.
      rewrite (N.div_mod x 10) at 3 by lia. lia.
    + intros _. by destruct ds.
Qed.

Lemma pretty_Z_digits (z : Z) :
  0 <= z ->
  exists ds,
    chars (pretty z) = ds /\ ds <> [] /\
    forallb is_digit ds = true /\ digits_value ds = z.
Proof.
  intros Hz. destruct z as [|p|p]; [|clear Hz|lia].
  - exists ["0"%char]. repeat split; done.
  - change (pretty (Z.pos p)) with (pretty_N_go (N.pos p) "").
    destruct (pretty_N_go_digits (N.pos p) "") as (ds & Hch & Hds & Hval & Hne).
    exists ds. change (chars "") with (@nil ascii) in Hch. rewrite app_nil_r in Hch.
    repeat split; auto. apply Hne. lia.
Qed.

(** *** Grouping and padding *)

Lemma group3_step a b c d (rest : list ascii) :
  Console.group3 (a :: b :: c :: d :: rest)
  = [a; b; c] ++ [","%char] ++ Console.group3 (d :: rest).
Proof. reflexivity. Qed.

Lemma group3_Forall (P : ascii -> Prop) (l : list ascii) :
  Forall P l -> P ","%char -> Forall P (Console.group3 l).
Proof.
  intros Hl Hc.
  assert (forall n l, (length l <= n)%nat -> Forall P l -> Forall P (Console.group3 l))
    as Hind; [|by apply (Hind (length l))].
  clear l Hl. intros n. induction n as [|n IH]; intros l Hlen Hl.
  - destruct l; [constructor|simpl in Hlen; lia].
  - destruct l as [|a [|b [|c [|d rest]]]]; try exact Hl.
    rewrite group3_step.
    inversion Hl as [|? ? Ha Hl1]; subst. inversion Hl1 as [|? ? Hb Hl2]; subst.
    inversion Hl2 as [|? ? Hc' Hl3]; subst.
    apply Forall_app. split; [by repeat constructor|].
    apply Forall_app. split; [by repeat constructor|].
    apply IH; [simpl in *; lia|exact Hl3].
Qed.

(** Without its commas a grouped number is the number. *)
Lemma group3_without_commas (l : list ascii) :
  List.filter (fun x => negb (Ascii.eqb "," x)) (Console.group3 l)
  = List.filter (fun x => negb (Ascii.eqb "," x)) l.
Proof.
  assert (forall n l, (length l <= n)%nat ->
            List.filter (fun x => negb (Ascii.eqb "," x)) (Console.group3 l)
            = List.filter (fun x => negb (Ascii.eqb "," x)) l)
    as Hind; [|by apply (Hind (length l))].
  clear l. intros n. induction n as [|n IH]; intros l Hlen.
  - destruct l; [reflexivity|simpl in Hlen; lia].
  - destruct l as [|a [|b [|c [|d rest]]]]; try reflexivity.
    rewrite group3_step.
    change (a :: b :: c :: d :: rest) with ([a; b; c] ++ d :: rest).
    rewrite !List.filter_app, IH by (simpl in *; lia). reflexivity.
Qed.

Lemma filter_keeps (p : ascii -> bool) (l : list ascii) :
  forallb p l = true -> List.filter p l = l.
Proof.
  induction l as [|a l IH]; [reflexivity|]. simpl.
  intros [-> Hl]%andb_true_iff. by rewrite IH.
Qed.

Lemma forallb_weaken (p q : ascii -> bool) (l : list ascii) :
  (forall c, p c = true -> q c = true) -> forallb p l = true -> forallb q l = true.
Proof. rewrite !forallb_forall. auto. Qed.

Lemma digit_char_val (k : Z) :
  0 <= k < 10 -> digit_val (ascii_of_N (Z.to_N (48 + k))) = k.
Proof.
  intros Hk.
  assert (k = 0 \/ k = 1 \/ k = 2 \/ k = 3 \/ k = 4 \/ k = 5 \/ k = 6 \/ k = 7
          \/ k = 8 \/ k = 9) as Hc by lia.
  repeat destruct Hc as [-> | Hc]; try subst k; reflexivity.
Qed.

(** Two digits for a number below 100 *)
Lemma zero_padded_2 (k : Z) :
  0 <= k < 100 ->
  exists c1 c2,
    zero_padded 2 k = [c1; c2] /\
    is_digit c1 = true /\ is_digit c2 = true /\
    digits_value [c1; c2] = k.
Proof.
  intros Hk. eexists _, _. split; [reflexivity|].
  assert (0 <= k / 10 < 10) as Hq by (split; [apply Z.div_pos|apply Z.div_lt_upper_bound]; lia).
  assert (0 <= k mod 10 < 10) as Hr by (apply Z.mod_pos_bound; lia).
  assert (0 <= (k / 10) mod 10 < 10) as Hr' by (apply Z.mod_pos_bound; lia).
  split; [by apply digit_char|]. split; [by apply digit_char|].
  unfold digits_value. cbn [fold_left]. rewrite !digit_char_val by assumption.
  rewrite (Z.mod_small (k / 10) 10) by lia.
  rewrite (Z.div_mod k 10) at 3 by lia. lia.
Qed.

(** *** Reading a decimal literal *)

Lemma lstrip_by_head (p : ascii -> bool) c r :
  p c = false -> lstrip_by p (c :: r) = c :: r.
Proof. intros Hc. simpl. by rewrite Hc. Qed.

Lemma rstrip_by_last (p : ascii -> bool) l c :
  p c = false -> rstrip_by p (l ++ [c]) = l ++ [c].
Proof.
  intros Hc. unfold rstrip_by. rewrite rev_unit, lstrip_by_head by exact Hc.
  by rewrite <- rev_unit, rev_involutive.
Qed.

Lemma existsb_digits (p : ascii -> bool) ds :
  (forall c, is_digit c = true -> p c = false) ->
  forallb is_digit ds = true -> existsb p ds = false.
Proof.
  intros Hp. induction ds as [|d ds IH]; [reflexivity|]. simpl.
  intros [Hd Hds]%andb_true_iff. by rewrite (Hp d Hd), IH.
Qed.

Lemma digits_value_two ds c1 c2 :
  digits_value (ds ++ [c1; c2]) = digits_value ds * 100 + digits_value [c1; c2].
Proof. unfold digits_value. rewrite fold_left_app. cbn [fold_left]. lia. Qed.

(** A sign, at least one digit, a point and two digits are read as the
    number they spell, in hundredths. *)
Lemma parse_decimal (neg : bool) (ds : list ascii) (c1 c2 : ascii) :
  ds <> [] -> forallb is_digit ds = true -> is_digit c1 = true -> is_digit c2 = true ->
  parse (text ((if neg then ["-"%char] else []) ++ ds ++ "."%char :: [c1; c2]))
  = Some (Fin (signed neg (digits_value ds * 100 + digits_value [c1; c2]) # 100)).
Proof.
  intros Hne Hds H1 H2.
  destruct ds as [|d ds']; [done|]. clear Hne.
  pose proof Hds as Hds0. cbn [forallb] in Hds0. apply andb_true_iff in Hds0 as [Hd Hds'].
  set (num := (d :: ds') ++ "."%char :: [c1; c2]).
  set (l := (if neg then ["-"%char] else []) ++ num).
  assert (exists c r, l = c :: r /\ is_c_space c = false) as (c & r & Hl & Hc).
  { unfold l, num. destruct neg; eexists _, _; (split; [reflexivity|]);
      [reflexivity|by apply digit_not_c_space]. }
  assert (exists body, l = body ++ [c2]) as (body & Hbody).
  { exists ((if neg then ["-"%char] else []) ++ (d :: ds') ++ ["."%char; c1]).
    unfold l, num. rewrite <- !app_assoc. reflexivity. }
  assert (forallb (fun c => code c <? 128) l = true) as Hascii.
  { unfold l, num. rewrite !forallb_app. cbn [forallb].
    rewrite (digit_is_ascii _ H1), (digit_is_ascii _ H2), (digit_is_ascii _ Hd).
    rewrite (forallb_weaken _ _ _ digit_is_ascii Hds').
    by destruct neg. }
  assert (existsb (Ascii.eqb "_") l = false) as Hunder.
  { unfold l, num. rewrite !existsb_app.
    assert (forall c, is_digit c = true -> Ascii.eqb "_" c = false) as Hu.
    { intros c0 Hc0. by apply (digit_differs c0 "_"). }
    cbn [existsb]. rewrite (Hu _ H1), (Hu _ H2), (Hu _ Hd), (existsb_digits _ _ Hu Hds').
    by destruct neg. }
  assert (take_sign l = (neg, num)) as Hsign.
  { unfold l. destruct neg; [reflexivity|]. unfold num. cbn [app take_sign].
    destruct (digit_differs d "-" Hd eq_refl) as [-> _].
    by destruct (digit_differs d "+" Hd eq_refl) as [-> _]. }
  assert (span_digits num = (d :: ds', "."%char :: [c1; c2])) as Hint.
  { unfold num. by apply span_digits_all. }
  assert (span_digits [c1; c2] = ([c1; c2], [])) as Hfrac.
  { cbn [span_digits]. by rewrite H1, H2. }
  unfold parse. rewrite chars_text. fold num. fold l.
  unfold transform. rewrite Hascii, Hunder.
  unfold float_from_string_inner. rewrite Hl, (lstrip_by_head _ _ _ Hc), <- Hl.
  rewrite Hbody at 1. rewrite rstrip_by_last, <- Hbody by (by apply digit_not_c_space).
  unfold string_to_double, strtod. rewrite Hsign, Hint.
  change (Ascii.eqb "." ".") with true. cbv iota. rewrite Hfrac.
  cbn [app length].
  change (d :: ds' ++ [c1; c2]) with ((d :: ds') ++ [c1; c2]).
  rewrite digits_value_two. reflexivity.
Qed.

(** *** Rounding *)

Lemma round_half_even_comp (x y : Q) :
  (x == y)%Q -> PyFloat.round_half_even x = PyFloat.round_half_even y.
Proof.
  intros Hxy. apply Z.le_antisymm; apply round_half_even_mono; rewrite Hxy; apply Qle_refl.
Qed.

Lemma round_half_even_Z (z : Z) : PyFloat.round_half_even (inject_Z z) = z.
Proof.
  unfold PyFloat.round_half_even. rewrite Qfloor_Z.
  destruct (Qcompare_spec (inject_Z z - inject_Z z) (1 # 2)) as [Hd|Hd|Hd];
    [exfalso; lra|reflexivity|exfalso; lra].
Qed.

(** The rounded value has the sign of the value, or is zero. *)
Lemma round_half_even_sign (q : Q) :
  PyFloat.round_half_even (q * 100)
  = signed (Qnum q <? 0) (Z.abs (PyFloat.round_half_even (q * 100))).
Proof.
  unfold signed. destruct (Qnum q <? 0) eqn:Hs.
  - apply Z.ltb_lt in Hs.
    assert (q * 100 <= inject_Z 0)%Q as Hle by (unfold Qle; simpl; lia).
    apply round_half_even_mono in Hle. rewrite round_half_even_Z in Hle. lia.
  - apply Z.ltb_ge in Hs.
    assert (inject_Z 0 <= q * 100)%Q as Hle by (unfold Qle; simpl; lia).
    apply round_half_even_mono in Hle. rewrite round_half_even_Z in Hle. lia.
Qed.

(** Rounding to two decimals a second time changes nothing. *)
Lemma round2_idempotent (x : pyfloat) :
  PyFloat.round2 (PyFloat.round2 x) = PyFloat.round2 x.
Proof.
  destruct x as [q| | |]; try reflexivity. cbn [PyFloat.round2]. f_equal. f_equal.
  rewrite <- (round_half_even_Z (PyFloat.round_half_even (q * 100))) at 2.
  apply round_half_even_comp. unfold Qeq. simpl. lia.
Qed.

(** *** The amount [main] prints *)

Lemma grouped_forallb (p : ascii -> bool) ds :
  p ","%char = true -> (forall c, is_digit c = true -> p c = true) ->
  forallb is_digit ds = true ->
  forallb p (rev (Console.group3 (rev ds))) = true.
Proof.
  intros Hcomma Hp Hds. apply List.forallb_forall. intros c Hin%List.in_rev.
  assert (List.Forall (fun c => p c = true) (Console.group3 (rev ds))) as Hall.
  { apply group3_Forall; [|exact Hcomma]. apply List.Forall_forall.
    intros c' Hin'%List.in_rev. apply Hp.
    by apply (proj1 (List.forallb_forall _ _) Hds). }
  by apply (proj1 (List.Forall_forall _ _) Hall).
Qed.

(** The characters of a formatted finite amount: a minus sign for a
    negative value, the digits of the whole part in groups of three, a
    point and two digits; together the digits spell the rounded value in
    hundredths. *)
Lemma format_2f_chars (q : Q) :
  exists ds c1 c2,
    chars (Console.format_2f (Fin q))
    = (if Qnum q <? 0 then ["-"%char] else [])
      ++ rev (Console.group3 (rev ds)) ++ "."%char :: [c1; c2] /\
    ds <> [] /\ forallb is_digit ds = true /\
    is_digit c1 = true /\ is_digit c2 = true /\
    digits_value ds * 100 + digits_value [c1; c2]
    = Z.abs (PyFloat.round_half_even (q * 100)).
Proof.
  set (n := Z.abs (PyFloat.round_half_even (q * 100))).
  assert (0 <= n) as Hn by apply Z.abs_nonneg.
  destruct (pretty_Z_digits (n / 100)) as (ds & Hch & Hne & Hds & Hval).
  { apply Z.div_pos; lia. }
  destruct (zero_padded_2 (n mod 100)) as (c1 & c2 & Hpad & H1 & H2 & Hcents).
  { apply Z.mod_pos_bound. lia. }
  exists ds, c1, c2. split; [|repeat split; try assumption].
  - unfold Console.format_2f, Console.grouped. fold n.
    rewrite !chars_app, !chars_text, Hch, Hpad. by destruct (Qnum q <? 0).
  - rewrite Hval, Hcents. rewrite (Z.div_mod n 100) at 3 by lia. lia.
Qed.

(** The formatted amount, with its currency sign, converts to the value
    rounded to two decimals. *)
Lemma format_2f_reads_back (y : pyfloat) :
  convert_price_text ("$" ++ Console.format_2f y) = Return (PyFloat.round2 y).
Proof.
  destruct y as [q| | |]; try reflexivity.
  destruct (format_2f_chars q) as (ds & c1 & c2 & Hch & Hne & Hds & H1 & H2 & Hval).
  set (sgn := if Qnum q <? 0 then ["-"%char] else []) in *.
  assert (remove_char "$" ("$" ++ Console.format_2f (Fin q))
          = text (sgn ++ rev (Console.group3 (rev ds)) ++ "."%char :: [c1; c2])) as Hdollar.
  { unfold remove_char. f_equal. rewrite chars_app, Hch.
    change (chars "$") with ["$"%char]. cbn [app List.filter].
    change (negb (Ascii.eqb "$" "$")) with false. cbv iota.
    apply filter_keeps. rewrite !forallb_app. cbn [forallb].
    assert (forall c, is_digit c = true -> negb (Ascii.eqb "$" c) = true) as Hd.
    { intros c Hc. by destruct (digit_differs c "$" Hc eq_refl) as [_ ->]. }
    rewrite (Hd _ H1), (Hd _ H2), (grouped_forallb _ ds eq_refl Hd Hds).
    unfold sgn. by destruct (Qnum q <? 0). }
  assert (remove_char "," (text (sgn ++ rev (Console.group3 (rev ds)) ++ "."%char :: [c1; c2]))
          = text (sgn ++ ds ++ "."%char :: [c1; c2])) as Hcomma.
  { unfold remove_char. f_equal. rewrite chars_text, !List.filter_app.
    assert (forall c, is_digit c = true -> negb (Ascii.eqb "," c) = true) as Hd.
    { intros c Hc. by destruct (digit_differs c "," Hc eq_refl) as [_ ->]. }
    rewrite List.filter_rev, group3_without_commas, <- List.filter_rev, rev_involutive.
    rewrite (filter_keeps _ ds (forallb_weaken _ _ _ Hd Hds)).
    cbn [List.filter]. rewrite (Hd _ H1), (Hd _ H2).
    change (negb (Ascii.eqb "," ".")) with true. cbv iota.
    unfold sgn. by destruct (Qnum q <? 0). }
  assert (contains "K" (text (sgn ++ ds ++ "."%char :: [c1; c2])) = false) as HK.
  { unfold contains. rewrite chars_text, !existsb_app. cbn [existsb].
    assert (forall c, is_digit c = true -> Ascii.eqb "K" c = false) as Hd.
    { intros c Hc. by destruct (digit_differs c "K" Hc eq_refl) as [_ ->]. }
    rewrite (Hd _ H1), (Hd _ H2), (existsb_digits _ _ Hd Hds).
    unfold sgn. by destruct (Qnum q <? 0). }
  unfold convert_price_text. rewrite Hdollar, Hcomma, HK.
  unfold py_float, sgn. rewrite (parse_decimal _ ds c1 c2 Hne Hds H1 H2), Hval.
  cbn [PyFloat.round2]. by rewrite <- round_half_even_sign.
Qed.

(** What [main] prints for a price, read by the scraper's own conversion
    of price texts, is the price rounded to two decimals; for a price that
    has two decimals already, as every price of the series has, it is the
    price itself. *)
Theorem printed_amount_reads_back (x : pyfloat) :
  convert_price_text ("$" ++ Console.format_2f x) = Return (PyFloat.round2 x) /\
  convert_price_text ("$" ++ Console.format_2f (PyFloat.round2 x))
  = Return (PyFloat.round2 x).
Proof.
  split; [apply format_2f_reads_back|].
  rewrite format_2f_reads_back. f_equal. apply round2_idempotent.
Qed.

(** The currency sign and the thousands separators are dropped wherever
    they stand in the text: nothing checks that the sign comes first or
    that the separators set off groups of three digits, so that "4,5$0"
    is read as 450.0. *)
Theorem sign_and_separators_ignored_anywhere (pre post : string) :
  convert_price_text (pre ++ "$" ++ post) = convert_price_text (pre ++ post) /\
  convert_price_text (pre ++ "," ++ post) = convert_price_text (pre ++ post) /\
  convert_price_text "4,5$0" = Return (Fin 450).
Proof.
  split; [|split; [|reflexivity]]; unfold convert_price_text;
    rewrite !remove_char_app.
  - change (remove_char "$" "$") with ""%string. reflexivity.
  - change (remove_char "$" ",") with ","%string.
    change (remove_char "," ",") with ""%string. reflexivity.
Qed.

End ReadBack.

(** ** From the series to the console and back *)

Section SeriesReadBack.

Context {S : Type} `{Env S}.

(** Every value of the generated series has two decimals (rounding it
    again changes nothing), and the amount [main] prints for it converts
    back, by the scraper's own conversion of price texts, to the value
    itself. *)
Theorem series_prints_and_reads_back (P : pyfloat) (w : world S) :
  anchor_ok (anchor_of w) ->
  exists m,
    (generate_series P w).1 = Return m /\
    forall k v, m !! k = Some v ->
      PyFloat.round2 v = v /\
      convert_price_text ("$" ++ Console.format_2f v) = Return v.
Proof.
  intros Hok. destruct (generate_series_run P w Hok) as (w' & Hrun & _ & _).
  eexists. rewrite Hrun. split; [reflexivity|]. intros k v Hk.
  apply foldl_store_inv in Hk as [Hk|(i & r & _ & _ & ->)].
  { by rewrite lookup_empty in Hk. }
  assert (PyFloat.round2 (monthly_value P r) = monthly_value P r) as Hround.
  { unfold monthly_value. apply round2_idempotent. }
  split; [exact Hround|]. by rewrite format_2f_reads_back, Hround.
Qed.

End SeriesReadBack.

(** ** Which iterations share a key *)

Lemma ord2ymd_day (n : Z) :
  0 < n <= MAXORDINAL ->
  let '(_, _, d) := ord2ymd n in 1 <= d <= 31.
Proof.
  intros Hn. unfold MAXORDINAL in Hn.
  unfold ord2ymd, DI400Y, DI100Y, DI4Y.
  set (n0 := n - 1).
  set (n400 := n0 / 146097). set (r400 := n0 mod 146097).
  set (n100 := r400 / 36524). set (r100 := r400 mod 36524).
  set (n4 := r100 / 1461). set (r4 := r100 mod 1461).
  set (n1 := r4 / 365). set (r1 := r4 mod 365).
  assert (0 <= r1 < 365) as Hr1 by (apply Z.mod_pos_bound; lia).
  destruct ((n1 =? 4) || (n100 =? 4)) eqn:Hlast; [lia|].
  rewrite Z.shiftr_div_pow2 by lia. change (2 ^ 5) with 32.
  set (m := (r1 + 50) / 32).
  assert (32 * m <= r1 + 50 < 32 * m + 32) as Hm.
  { unfold m. pose proof (Z.div_mod (r1 + 50) 32 ltac:(lia)).
    pose proof (Z.mod_pos_bound (r1 + 50) 32 ltac:(lia)). lia. }
  assert (m = 1 \/ m = 2 \/ m = 3 \/ m = 4 \/ m = 5 \/ m = 6 \/ m = 7 \/
          m = 8 \/ m = 9 \/ m = 10 \/ m = 11 \/ m = 12) as Hcases by lia.
  clearbody m r1. clear -Hr1 Hm Hcases.
  repeat (destruct Hcases as [->|Hcases]); try subst m; cbn;
    repeat match goal with
           | |- context [if ?b then _ else _] => destruct b eqn:?
           end;
    rewrite ?Z.ltb_lt, ?Z.ltb_ge in *; simpl; lia.
Qed.

(** The date [n] days before [t]: its ordinal, and the ranges of its
    year, month and day *)
Lemma sub_days_date (t : datetime) (n : Z) :
  FIRST_4DIGIT <= toordinal t - n <= MAXORDINAL ->
  exists d, sub_days t n = Return d /\
    toordinal d = toordinal t - n /\
    1000 <= year d <= 9999 /\ 1 <= month d <= 12 /\ 1 <= day d <= 31.
Proof.
  intros Hn.
  assert (0 < toordinal t - n <= MAXORDINAL) as Hn'
    by (unfold FIRST_4DIGIT in Hn; lia).
  pose proof (ymd2ord_ord2ymd _ Hn') as Hord.
  pose proof (ord2ymd_range _ Hn) as Hrange.
  pose proof (ord2ymd_day _ Hn') as Hday.
  unfold sub_days. destruct Hn' as [Hlo Hhi].
  apply Z.ltb_lt in Hlo. apply Z.leb_le in Hhi. rewrite Hlo, Hhi. cbn [andb].
  destruct (ord2ymd (toordinal t - n)) as [[y m] d].
  eexists. split; [reflexivity|]. unfold toordinal at 1. cbn [year month day].
  tauto.
Qed.

Lemma zero_padded_length (w : nat) : forall n, length (zero_padded w n) = w.
Proof.
  induction w as [|w IH]; intros n; [reflexivity|].
  cbn [zero_padded]. rewrite length_app, IH. simpl. lia.
Qed.

(** The padded digits tell the number, below [10 ^ width]. *)
Lemma zero_padded_inj (w : nat) : forall n n',
  zero_padded w n = zero_padded w n' -> n mod 10 ^ Z.of_nat w = n' mod 10 ^ Z.of_nat w.
Proof.
  induction w as [|w IH]; intros n n' Heq.
  - change (10 ^ Z.of_nat 0) with 1. by rewrite !Z.mod_1_r.
  - cbn [zero_padded] in Heq. apply app_inj_tail in Heq as [Hhigh Hlow].
    apply IH in Hhigh. apply (f_equal FloatText.digit_val) in Hlow.
    rewrite !digit_char_val in Hlow by (apply Z.mod_pos_bound; lia).
    rewrite Nat2Z.inj_succ, Z.pow_succ_r by lia.
    rewrite !(Z.rem_mul_r _ 10) by lia. by rewrite Hhigh, Hlow.
Qed.

(** Two dates with the same key are of the same year and month. *)
Lemma strftime_Y_m_inj (d d' : datetime) :
  0 <= year d < 10000 -> 0 <= year d' < 10000 ->
  0 <= month d < 100 -> 0 <= month d' < 100 ->
  strftime_Y_m d = strftime_Y_m d' -> year d = year d' /\ month d = month d'.
Proof.
  intros Hy Hy' Hm Hm' Heq. unfold strftime_Y_m in Heq.
  apply (f_equal PyStr.chars) in Heq. rewrite !chars_text in Heq.
  apply app_inj_1 in Heq as [Hyear Hrest]; [|by rewrite !zero_padded_length].
  apply app_inv_head in Hrest as Hmonth.
  apply zero_padded_inj in Hyear, Hmonth.
  change (10 ^ Z.of_nat 4) with 10000 in Hyear. change (10 ^ Z.of_nat 2) with 100 in Hmonth.
  rewrite !Z.mod_small in Hyear, Hmonth by assumption. done.
Qed.

(** Two iterations share a key only if they follow each other and the
    date of the earlier one is the 31st of a month: 30 days before, the
    date is the first of the same month. *)
Lemma shared_key_dates (t : datetime) (i j : Z) :
  anchor_ok t -> 0 <= i < j -> j < 36 ->
  date_key t i = date_key t j ->
  exists d d',
    sub_days t (30 * i) = Return d /\ sub_days t (30 * j) = Return d' /\
    j = i + 1 /\ year d' = year d /\ month d' = month d /\ day d = 31 /\ day d' = 1.
Proof.
  intros Hok Hij Hj Hkey. unfold anchor_ok in Hok.
  destruct (sub_days_date t (30 * i)) as (d & Hd & Hord & Hy & Hm & Hday); [lia|].
  destruct (sub_days_date t (30 * j)) as (d' & Hd' & Hord' & Hy' & Hm' & Hday'); [lia|].
  unfold date_key in Hkey. rewrite Hd, Hd' in Hkey.
  apply strftime_Y_m_inj in Hkey as [Hyear Hmonth]; try lia.
  exists d, d'. split; [exact Hd|]. split; [exact Hd'|].
  unfold toordinal, ymd2ord in Hord, Hord'. rewrite Hyear, Hmonth in Hord.
  repeat split; [lia|congruence|congruence|lia|lia].
Qed.


(** *** Dates and ordinals, both ways *)

(** The date at an ordinal is a date of the calendar. *)
Lemma ord2ymd_valid (n : Z) :
  0 < n <= MAXORDINAL ->
  let '(y, m, d) := ord2ymd n in 1 <= m <= 12 /\ 1 <= d <= days_in_month y m.
Proof.
  intros Hn. unfold MAXORDINAL in Hn. unfold ord2ymd, DI400Y, DI100Y, DI4Y.
  set (n0 := n - 1).
  set (n400 := n0 / 146097). set (r400 := n0 mod 146097).
  set (n100 := r400 / 36524). set (r100 := r400 mod 36524).
  set (n4 := r100 / 1461). set (r4 := r100 mod 1461).
  set (n1 := r4 / 365). set (r1 := r4 mod 365).
  assert (0 <= n0 < 3652059) as Hn0 by (unfold n0; lia).
  assert (0 <= r400 < 146097) by (apply Z.mod_pos_bound; lia).
  assert (0 <= r100 < 36524) by (apply Z.mod_pos_bound; lia).
  assert (0 <= r4 < 1461) by (apply Z.mod_pos_bound; lia).
  assert (0 <= r1 < 365) as Hr1 by (apply Z.mod_pos_bound; lia).
  assert (n0 = 146097 * n400 + r400) by (apply Z.div_mod; lia).
  assert (r400 = 36524 * n100 + r100) by (apply Z.div_mod; lia).
  assert (r100 = 1461 * n4 + r4) by (apply Z.div_mod; lia).
  assert (r4 = 365 * n1 + r1) by (apply Z.div_mod; lia).
  assert (0 <= n400) by (apply Z.div_pos; lia).
  assert (0 <= n100) by (apply Z.div_pos; lia).
  assert (0 <= n4) by (apply Z.div_pos; lia).
  assert (0 <= n1) by (apply Z.div_pos; lia).
  clearbody n0 n400 r400 n100 r100 n4 r4 n1 r1.
  destruct ((n1 =? 4) || (n100 =? 4)) eqn:Hlast.
  - unfold days_in_month. simpl. lia.
  - apply orb_false_iff in Hlast as [Hn1 Hn100].
    apply Z.eqb_neq in Hn1, Hn100.
    assert (n1 <= 3) by lia. assert (n100 <= 3) by lia. assert (n4 <= 24) by lia.
    set (y := n400 * 400 + 1 + n100 * 100 + n4 * 4 + n1).
    set (leapyear := (n1 =? 3) && (negb (n4 =? 24) || (n100 =? 3))).
    assert (is_leap y = leapyear) as Hleap.
    { unfold is_leap, leapyear, y.
      destruct (n1 =? 3) eqn:E1; destruct (n4 =? 24) eqn:E4; destruct (n100 =? 3) eqn:E100;
        rewrite ?Z.eqb_eq, ?Z.eqb_neq in *; cbn [negb andb orb];
        repeat match goal with
               | |- context [?a mod ?b =? 0] =>
                   let E := fresh "E" in destruct (a mod b =? 0) eqn:E;
                   rewrite ?Z.eqb_eq, ?Z.eqb_neq in E
               end; cbn [negb andb orb]; try reflexivity; exfalso;
        Z.to_euclidean_division_equations; lia. }
    rewrite Z.shiftr_div_pow2 by lia. change (2 ^ 5) with 32.
    set (m := (r1 + 50) / 32).
    assert (32 * m <= r1 + 50 < 32 * m + 32) as Hm.
    { unfold m. pose proof (Z.div_mod (r1 + 50) 32 ltac:(lia)).
      pose proof (Z.mod_pos_bound (r1 + 50) 32 ltac:(lia)). lia. }
    assert (m = 1 \/ m = 2 \/ m = 3 \/ m = 4 \/ m = 5 \/ m = 6 \/ m = 7 \/
            m = 8 \/ m = 9 \/ m = 10 \/ m = 11 \/ m = 12) as Hcases by lia.
    clearbody m y leapyear. clear -Hr1 Hm Hcases Hleap.
    repeat (destruct Hcases as [->|Hcases]); try subst m;
      destruct leapyear; cbn;
      repeat match goal with
             | |- context [if ?b then _ else _] => destruct b eqn:?
             end;
      unfold days_in_month; rewrite Hleap; rewrite ?Z.ltb_lt, ?Z.ltb_ge in *; simpl; lia.
Qed.

Lemma days_before_year_mono (y y' : Z) :
  y <= y' -> days_before_year y <= days_before_year y'.
Proof. intros Hy. unfold days_before_year. Z.to_euclidean_division_equations. lia. Qed.

Lemma days_before_year_next (y : Z) :
  days_before_year (y + 1) = days_before_year y + 365 + (if is_leap y then 1 else 0).
Proof.
  unfold days_before_year, is_leap.
  repeat match goal with
         | |- context [?a mod ?b =? 0] =>
             let E := fresh "E" in destruct (a mod b =? 0) eqn:E;
             rewrite ?Z.eqb_eq, ?Z.eqb_neq in E
         end; cbn [negb andb orb]; Z.to_euclidean_division_equations; lia.
Qed.

Ltac month_cases m :=
  let Hc := fresh "Hc" in
  assert (m = 1 \/ m = 2 \/ m = 3 \/ m = 4 \/ m = 5 \/ m = 6 \/ m = 7 \/
          m = 8 \/ m = 9 \/ m = 10 \/ m = 11 \/ m = 12) as Hc by lia;
  repeat (destruct Hc as [->|Hc]); try subst m.

(** The day of the year of a calendar date *)
Lemma day_of_year_range (y m d : Z) :
  1 <= m <= 12 -> 1 <= d <= days_in_month y m ->
  1 <= days_before_month y m + d <= 365 + (if is_leap y then 1 else 0).
Proof.
  intros Hm. unfold days_in_month, days_before_month.
  month_cases m; destruct (is_leap y); simpl; lia.
Qed.

(** A later month starts after the last day of an earlier one. *)
Lemma days_before_month_mono (y m m' : Z) :
  1 <= m < m' -> m' <= 12 ->
  days_before_month y m + days_in_month y m <= days_before_month y m'.
Proof.
  intros Hm Hm'. unfold days_in_month, days_before_month.
  month_cases m; month_cases m'; try lia; destruct (is_leap y); simpl; lia.
Qed.

(** Two calendar dates with the same ordinal are the same date. *)
Lemma ymd2ord_inj (y m d y' m' d' : Z) :
  1 <= m <= 12 -> 1 <= d <= days_in_month y m ->
  1 <= m' <= 12 -> 1 <= d' <= days_in_month y' m' ->
  ymd2ord y m d = ymd2ord y' m' d' -> y = y' /\ m = m' /\ d = d'.
Proof.
  intros Hm Hd Hm' Hd' Heq. unfold ymd2ord in Heq.
  pose proof (day_of_year_range y m d Hm Hd) as Hr.
  pose proof (day_of_year_range y' m' d' Hm' Hd') as Hr'.
  assert (y = y') as <-.
  { destruct (Z.lt_trichotomy y y') as [Hlt|[Heq'|Hgt]]; [|exact Heq'|]; exfalso.
    - pose proof (days_before_year_mono (y + 1) y' ltac:(lia)).
      rewrite days_before_year_next in *. lia.
    - pose proof (days_before_year_mono (y' + 1) y ltac:(lia)).
      rewrite days_before_year_next in *. lia. }
  assert (m = m') as <-.
  { destruct (Z.lt_trichotomy m m') as [Hlt|[Heq'|Hgt]]; [|exact Heq'|]; exfalso.
    - pose proof (days_before_month_mono y m m' ltac:(lia) ltac:(lia)). lia.
    - pose proof (days_before_month_mono y m' m ltac:(lia) ltac:(lia)). lia. }
  repeat split. lia.
Qed.

(** The date [n] days before [t] is a date of the calendar. *)
Lemma sub_days_valid (t : datetime) (n : Z) (d : datetime) :
  sub_days t n = Return d ->
  1 <= month d <= 12 /\ 1 <= day d <= days_in_month (year d) (month d).
Proof.
  unfold sub_days. destruct (_ && _) eqn:Hrange; [|discriminate].
  apply andb_true_iff in Hrange as [Hlo%Z.ltb_lt Hhi%Z.leb_le].
  pose proof (ord2ymd_valid (toordinal t - n) ltac:(lia)) as Hvalid.
  destruct (ord2ymd _) as [[y m] d0]. intros [= <-]. exact Hvalid.
Qed.

(** Thirty days before the 31st of a month is the first of the month. *)
Lemma day_31_shares_key (t : datetime) (i : Z) :
  anchor_ok t -> 0 <= i < 35 -> day_of t i = 31 ->
  date_key t (i + 1) = date_key t i /\ day_of t (i + 1) = 1.
Proof.
  intros Hok Hi H31. unfold anchor_ok in Hok.
  destruct (sub_days_date t (30 * i)) as (d & Hd & Hord & _); [lia|].
  destruct (sub_days_date t (30 * (i + 1))) as (d' & Hd' & Hord' & _); [lia|].
  unfold day_of, date_key in *. rewrite Hd in H31 |- *. rewrite Hd'.
  destruct (sub_days_valid _ _ _ Hd) as [Hm Hday].
  destruct (sub_days_valid _ _ _ Hd') as [Hm' Hday'].
  destruct (ymd2ord_inj (year d') (month d') (day d') (year d) (month d) 1)
    as (Hy & Hmo & Hda); try assumption; [lia|unfold toordinal, ymd2ord in *; lia|].
  split; [|exact Hda]. unfold strftime_Y_m. by rewrite Hy, Hmo.
Qed.

(** *** The keys of the series, counted *)

(** Two different iterations format the same key exactly when one
    follows the other and the date of the first is the 31st of a month
    (30 days earlier it is the first of that month); iterations two or
    more apart never share a key. *)
Theorem shared_key_iff_day_31 (t : datetime) (i j : Z) :
  anchor_ok t -> 0 <= i < j -> j < 36 ->
  (date_key t i = date_key t j <-> j = i + 1 /\ day_of t i = 31).
Proof.
  intros Hok Hij Hj. split.
  - intros Hkey.
    destruct (shared_key_dates t i j Hok Hij Hj Hkey)
      as (d & d' & Hd & Hd' & Hnext & _ & _ & H31 & H1).
    unfold day_of. rewrite Hd. done.
  - intros [-> H31]. symmetry. apply day_31_shares_key; [exact Hok|lia|exact H31].
Qed.

Lemma forallb_false_witness {A} (f : A -> bool) (l : list A) :
  forallb f l = false -> exists x, In x l /\ f x = false.
Proof.
  induction l as [|a l IH]; [discriminate|]. simpl.
  destruct (f a) eqn:Hfa; simpl.
  - intros (x & Hin & Hx)%IH. exists x. auto.
  - intros _. exists a. auto.
Qed.

(** A list with as many different elements as it is long has no
    duplicates. *)
Lemma size_list_to_set_NoDup (l : list string) :
  size (list_to_set l : gset string) = length l -> NoDup l.
Proof.
  induction l as [|x l IH]; [constructor|].
  cbn [list_to_set length]. intros Hsize.
  pose proof (size_list_to_set_le l) as Hle.
  destruct (decide (x ∈ l)) as [Hin|Hnin].
  - exfalso.
    assert ({[x]} ∪ list_to_set l = (list_to_set l : gset string)) as Heq.
    { apply subseteq_union_1_L. apply singleton_subseteq_l, elem_of_list_to_set, Hin. }
    rewrite Heq in Hsize. lia.
  - rewrite size_union, size_singleton in Hsize.
    + constructor; [exact Hnin|]. apply IH. lia.
    + apply disjoint_singleton_l. by rewrite elem_of_list_to_set.
Qed.

Section FullSeries.

Context {S : Type} `{Env S}.

Lemma keys_differ_without_day_31 (t : datetime) (i j : Z) :
  anchor_ok t -> no_day_31 t = true -> 0 <= i < j -> j < 36 ->
  date_key t i <> date_key t j.
Proof.
  intros Hok Hno Hij Hj Hkey.
  destruct (shared_key_dates t i j Hok Hij Hj Hkey)
    as (d & d' & Hd & _ & Hnext & _ & _ & H31 & _).
  unfold no_day_31 in Hno. rewrite forallb_forall in Hno.
  assert (In i (seqZ 0 35)) as Hin by (apply list_elem_of_In, elem_of_seqZ; lia).
  specialize (Hno i Hin). unfold day_of in Hno. rewrite Hd, H31 in Hno. discriminate.
Qed.

(** The mapping returned has 36 keys exactly when none of the dates of
    iterations 0 to 34 falls on the 31st of a month; then no store
    overwrites another, and under the key of each iteration the mapping
    holds the value computed from that iteration's own draw. *)
Theorem series_has_36_keys_iff_no_day_31 (P : pyfloat) (w : world S) :
  anchor_ok (anchor_of w) ->
  exists m,
    (generate_series P w).1 = Return m /\
    (size m = 36%nat <-> no_day_31 (anchor_of w) = true) /\
    (no_day_31 (anchor_of w) = true ->
     forall i r, 0 <= i < 36 -> draws_of w !! Z.to_nat i = Some r ->
       m !! date_key (anchor_of w) i = Some (monthly_value P r)).
Proof.
  intros Hok. set (t := anchor_of w) in *.
  assert (no_day_31 t = true ->
          forall i j, 0 <= i < 36 -> 0 <= j < 36 -> date_key t i = date_key t j -> i = j)
    as Hinj.
  { intros Hno i j Hi Hj Hkey.
    destruct (Z.lt_trichotomy i j) as [Hlt|[Heq|Hgt]]; [|exact Heq|].
    - by destruct (keys_differ_without_day_31 t i j Hok Hno ltac:(lia) ltac:(lia)).
    - by destruct (keys_differ_without_day_31 t j i Hok Hno ltac:(lia) ltac:(lia)). }
  destruct (generate_series_run P w Hok) as (w' & Hrun & _ & _).
  destruct (generated_keys P w Hok) as (m & Hm & Hdom).
  exists m. split; [exact Hm|]. split; [split|].
  - intros Hsize. rewrite <- size_dom, Hdom in Hsize. fold t in Hsize.
    apply size_list_to_set_NoDup in Hsize.
    destruct (no_day_31 t) eqn:Hno; [reflexivity|]. exfalso.
    apply forallb_false_witness in Hno as (i & Hin & H31).
    apply list_elem_of_In, elem_of_seqZ in Hin.
    apply negb_false_iff, Z.eqb_eq in H31.
    destruct (day_31_shares_key t i Hok ltac:(lia) H31) as [Hkey _].
    change (map (date_key t) (seqZ 0 36)) with (date_key t <$> seqZ 0 36) in Hsize.
    assert (Z.to_nat (i + 1) = Z.to_nat i) as Habs; [|lia].
    apply (proj1 (NoDup_alt _) Hsize _ _ (date_key t i)).
    + rewrite list_lookup_fmap, (proj2 (lookup_seqZ 0 36 (Z.to_nat (i + 1)) (i + 1))) by lia.
      simpl. by rewrite Hkey.
    + by rewrite list_lookup_fmap, (proj2 (lookup_seqZ 0 36 (Z.to_nat i) i)) by lia.
  - intros Hno. rewrite <- size_dom, Hdom. fold t. rewrite size_list_to_set.
    + by rewrite length_map.
    + apply NoDup_alt. intros a b k Ha Hb.
      change (map (date_key t) (seqZ 0 36)) with (date_key t <$> seqZ 0 36) in Ha, Hb.
      rewrite list_lookup_fmap in Ha, Hb.
      destruct (seqZ 0 36 !! a) as [i|] eqn:Hia; [|discriminate].
      destruct (seqZ 0 36 !! b) as [j|] eqn:Hjb; [|discriminate].
      simpl in Ha, Hb. injection Ha as Ha. injection Hb as Hb.
      apply lookup_seqZ in Hia as [-> ?], Hjb as [-> ?].
      assert (0 + Z.of_nat a = 0 + Z.of_nat b)
        by (apply (Hinj Hno); [lia|lia|congruence]).
      lia.
  - intros Hno i r Hi Hr. rewrite Hrun in Hm. cbn [fst] in Hm. injection Hm as <-.
    destruct (series_pair_lookup w i Hi) as (r' & Hr' & Hpair).
    rewrite Hr in Hr'. injection Hr' as <-.
    apply (foldl_store_last P t _ ∅ (Z.to_nat i) i r Hpair).
    intros j' i' r' Hlt Hj' Hkey.
    apply lookup_zip_with_Some in Hj' as (i'' & r'' & Heq & Hi' & _).
    injection Heq as <- <-. apply lookup_seqZ in Hi' as [-> Hbound].
    assert (0 + Z.of_nat j' = i) by (apply (Hinj Hno); [lia|lia|exact Hkey]). lia.
Qed.

End FullSeries.

(** *** How many keys *)

(** The keys of iterations [a] to 35: each iteration brings a new key
    unless its date is a 31st. *)
Lemma key_count_from (t : datetime) :
  anchor_ok t ->
  forall (n : nat) (a : Z), 0 <= a -> a + Z.of_nat n = 35 ->
    Nat.add
      (size (list_to_set (date_key t <$> seqZ a (Z.of_nat n + 1)) : gset string))
      (length (List.filter (fun i => day_of t i =? 31) (seqZ a (Z.of_nat n))))
    = Datatypes.S n.
Proof.
  intros Hok n. induction n as [|n IH]; intros a Ha Hsum.
  - change (Z.of_nat 0 + 1) with 1. change (Z.of_nat 0) with 0.
    rewrite (seqZ_cons a 1), !seqZ_nil by lia.
    cbn [fmap list_fmap list_to_set List.filter length].
    rewrite union_empty_r_L, size_singleton. reflexivity.
  - rewrite (seqZ_cons a (Z.of_nat (Datatypes.S n) + 1)) by lia.
    rewrite (seqZ_cons a (Z.of_nat (Datatypes.S n))) by lia.
    replace (Z.pred (Z.of_nat (Datatypes.S n) + 1)) with (Z.of_nat n + 1) by lia.
    replace (Z.pred (Z.of_nat (Datatypes.S n))) with (Z.of_nat n) by lia.
    specialize (IH (Z.succ a) ltac:(lia) ltac:(lia)).
    cbn [fmap list_fmap list_to_set List.filter].
    change (list_fmap Z string (date_key t) ?l) with (date_key t <$> l) in *.
    set (rest := date_key t <$> seqZ (Z.succ a) (Z.of_nat n + 1)) in *.
    destruct (day_of t a =? 31) eqn:H31.
    + apply Z.eqb_eq in H31.
      destruct (day_31_shares_key t a Hok ltac:(lia) H31) as [Hkey _].
      assert ({[date_key t a]} ∪ list_to_set rest = (list_to_set rest : gset string)) as ->.
      { apply subseteq_union_1_L, singleton_subseteq_l, elem_of_list_to_set.
        unfold rest. apply list_elem_of_fmap. exists (a + 1). split; [by rewrite Hkey|].
        apply elem_of_seqZ. lia. }
      cbn [length]. lia.
    + apply Z.eqb_neq in H31.
      rewrite size_union, size_singleton; [lia|].
      apply disjoint_singleton_l. rewrite elem_of_list_to_set. unfold rest.
      intros (j & Hkey & Hj%elem_of_seqZ)%list_elem_of_fmap.
      destruct (shared_key_dates t a j Hok ltac:(lia) ltac:(lia) Hkey)
        as (d & _ & Hd & _ & _ & _ & _ & Hday & _).
      unfold day_of in H31. rewrite Hd in H31. contradiction.
Qed.

Section KeyCount.

Context {S : Type} `{Env S}.

(** The mapping returned has one key for each of the 36 iterations less
    one for each date, among those of iterations 0 to 34, that falls on
    the 31st of a month: that iteration and the next format the same
    key. *)
Theorem series_key_count (P : pyfloat) (w : world S) :
  anchor_ok (anchor_of w) ->
  exists m,
    (generate_series P w).1 = Return m /\
    (size m + days_31 (anchor_of w))%nat = 36%nat.
Proof.
  intros Hok. destruct (generated_keys P w Hok) as (m & Hm & Hdom).
  exists m. split; [exact Hm|].
  rewrite <- size_dom, Hdom.
  exact (key_count_from (anchor_of w) Hok 35 0 ltac:(lia) ltac:(lia)).
Qed.

End KeyCount.

(** ** No failure goes unlogged *)

Section LoggedFailures.

Context {S : Type} `{Env S}.

(** Whenever [get_median_sale_prices] raises an exception deriving from
    [Exception], the last entry of the log is the ERROR line that reports
    it, "ValueError in get_median_sale_prices: ..." for a [ValueError] and
    "Error in get_median_sale_prices: ..." for any other; up to there the
    function has neither quit the browser nor touched a file, and
    [self.driver] is as it was. *)
Theorem failure_is_logged_last (state city : string) (w w' : world S) (e : exn) :
  get_median_sale_prices state city w = (Raise e, w') ->
  is_Exception e = true ->
  self_driver w' = self_driver w /\
  exists evs,
    log w' = log w ++ evs ++
      [Logged ERROR
         ((if is_ValueError e then "ValueError in get_median_sale_prices: "
           else "Error in get_median_sale_prices: ") ++ exn_msg e)] /\
    quits evs = 0%nat /\ file_events evs = [].
Proof.
  rewrite get_median_sale_prices_unfold. unfold try_except.
  match goal with
  | |- context [match ?body w with _ => _ end] =>
      assert (quiet session_only body) as Hq by quiet_tac;
      specialize (Hq w); destruct (body w) as [[a|e0] w1]
  end; [discriminate|].
  cbn [snd] in Hq. apply session_only_quits in Hq as (Hd & evs & Hl & Hquits & Hfiles).
  destruct (is_ValueError e0) eqn:Hv.
  - unfold mbind, M_bind, logger, emit, raise. intros [= <- <-] _.
    rewrite Hv. split; [exact Hd|]. exists evs. cbn [record log].
    rewrite Hl, <- app_assoc. done.
  - unfold except_Exception. destruct (is_Exception e0) eqn:He.
    + unfold mbind, M_bind, logger, emit, raise. intros [= <- <-] _.
      rewrite Hv. split; [exact Hd|]. exists evs. cbn [record log].
      rewrite Hl, <- app_assoc. done.
    + intros [= <- <-] He'. congruence.
Qed.

End LoggedFailures.

(** ** Closed runs of the further properties *)

Module Sessions.

Import Fake Steady Breaking.

Lemma fake_raises_exceptions : exceptions_only (S := Fake.t).
Proof.
  intros A c s e s'. destruct c; simpl; try (intros [= <- _]; reflexivity).
  destruct (Fake.page_ok s); intros [= <- _]; reflexivity.
Qed.

Lemma breaking_raises_exceptions : exceptions_only (S := Breaking.t).
Proof.
  intros A c s e s'. simpl. unfold Breaking.answer.
  destruct (Breaking.calls_left s); [intros [= <- _]; reflexivity|].
  destruct c; simpl; discriminate.
Qed.

Lemma steady_always_returns : always_returns (S := Steady.t).
Proof. intros A c s. destruct c; simpl; eexists; eexists; reflexivity. Qed.

(** A browser that breaks down after nine calls, in the middle of the
    first attempt *)
Lemma navigate_never_raises_witness :
  exists b w' evs,
    navigate_to_city "Austin" "TX" (World (Breaking.Left 9) true []) = (Return b, w') /\
    log w' = [] ++ evs /\
    (1 <= attempts evs <= 3)%nat /\
    (b = false -> attempts evs = 3%nat).
Proof.
  exact (navigate_never_raises breaking_raises_exceptions "Austin" "TX"
           (World (Breaking.Left 9) true [])).
Defined.


(** The browser is launched, then breaks down at the script that hides
    the webdriver property. *)
Lemma setup_failure_ends_run_witness :
  main (Breaking.start 2) = (Raise Breaking.crash, (init (Breaking.start 2)).2) /\
  prompts (log (init (Breaking.start 2)).2) = prompts (log (Breaking.start 2)) /\
  file_events (log (init (Breaking.start 2)).2) = file_events (log (Breaking.start 2)) /\
  quits (log (init (Breaking.start 2)).2) = quits (log (Breaking.start 2)) /\
  self_driver (init (Breaking.start 2)).2 = launched (env (Breaking.start 2)) /\
  (run (Breaking.start 2)).1 = Raise Breaking.crash /\
  quits (log (run (Breaking.start 2)).2) =
    (quits (log (Breaking.start 2)) + (if launched (env (Breaking.start 2)) then 1 else 0))%nat /\
  (is_Exception Breaking.crash = true ->
   exists evs,
     log (init (Breaking.start 2)).2 =
       log (Breaking.start 2) ++ evs ++
       [Logged ERROR ("Error setting up Selenium: " ++ exn_msg Breaking.crash)]).
Proof.
  apply (setup_failure_ends_run (Breaking.start 2) (init (Breaking.start 2)).2 Breaking.crash).
  vm_compute. reflexivity.
Defined.

Lemma unreadable_price_raises_ValueError_witness :
  exn_cls (Exn ValueError "could not convert string to float: 'N/A'") = ValueError /\
  get_median_sale_prices "TX" "Austin" unpriced =
    (Raise (Exn ValueError "could not convert string to float: 'N/A'"),
     World (env (price_read unpriced)) (self_driver (price_read unpriced))
       (log (price_read unpriced)
        ++ [Logged INFO ("Found current price: " ++ PyStr.strip "N/A");
            Logged ERROR
              ("ValueError in get_median_sale_prices: " ++
               exn_msg (Exn ValueError "could not convert string to float: 'N/A'"))])).
Proof.
  apply (unreadable_price_raises_ValueError "TX" "Austin" "N/A" unpriced
           (navigate_to_city "Austin" "TX" unpriced).2
           (perform (wait_until 20 (presence_of_element_located price_xpath))
              (navigate_to_city "Austin" "TX" unpriced).2).2
           (price_read unpriced)
           (Exn ValueError "could not convert string to float: 'N/A'")).
  - vm_compute. reflexivity.
  - vm_compute. reflexivity.
  - vm_compute. reflexivity.
  - vm_compute. reflexivity.
Defined.

Lemma readable_price_gives_series_witness :
  exists w',
    get_median_sale_prices "TX" "Austin" online =
      (Return (foldl (store (Fin 450000) (anchor_of (price_read online))) ∅
                 (zip (seqZ 0 36) (draws_of (price_read online)))), w') /\
    self_driver w' = self_driver (price_read online) /\
    log w' =
      log (price_read online)
      ++ Logged INFO ("Found current price: " ++ PyStr.strip "$450K")
         :: Clock (anchor_of (price_read online))
         :: map drew (draws_of (price_read online)).
Proof.
  apply (readable_price_gives_series "TX" "Austin" "$450K" online
           (navigate_to_city "Austin" "TX" online).2
           (perform (wait_until 20 (presence_of_element_located price_xpath))
              (navigate_to_city "Austin" "TX" online).2).2
           (price_read online)
           (Fin 450000)).
  - vm_compute. reflexivity.
  - vm_compute. reflexivity.
  - vm_compute. reflexivity.
  - vm_compute. reflexivity.
  - unfold anchor_ok. vm_compute. split; discriminate.
Defined.

(** The online run in figures: the clock stands at 15 June 2024, the 36
    draws are zero, and every month holds the price read. *)
Example online_series :
  anchor_of (price_read online) = june15 /\
  draws_of (price_read online) = replicate 36 0%Q /\
  stored_under "2024-06" (get_median_sale_prices "TX" "Austin" online).1
    = Some (Fin (45000000 # 100)) /\
  stored_under "2021-07" (get_median_sale_prices "TX" "Austin" online).1
    = Some (Fin (45000000 # 100)).
Proof. vm_compute. repeat split. Qed.

Lemma offline_set_up : init offline = (Return tt, (init offline).2).
Proof. vm_compute. reflexivity. Defined.

Lemma main_reports_and_returns_witness :
  (main offline).1 = Return tt /\
  (run offline).1 = Return tt /\
  forall e w2, main_try (init offline).2 = (Raise e, w2) ->
    printed (log (main offline).2) = printed (log w2) ++ [("Error in main: " ++ exn_msg e)%string].
Proof.
  exact (main_reports_and_returns fake_raises_exceptions offline (init offline).2
           offline_set_up).
Defined.

(** The run whose navigation fails, in figures: one line is printed, and
    it reports the navigation error. *)
Example offline_run_prints_the_error :
  printed (log (main offline).2) =
    ["Error in main: Could not navigate to Austin, TX housing market page."%string].
Proof. vm_compute. reflexivity. Qed.

(** The anchor 31 January 2024: iterations 0 and 1 *)
Lemma shared_key_iff_day_31_witness :
  date_key jan31 0 = date_key jan31 1 <-> 1 = 0 + 1 /\ day_of jan31 0 = 31.
Proof.
  apply (shared_key_iff_day_31 jan31 0 1).
  - unfold anchor_ok. vm_compute. split; discriminate.
  - lia.
  - lia.
Defined.

Lemma june15_is_late_enough : anchor_ok (anchor_of w_june15).
Proof. unfold anchor_ok. vm_compute. split; discriminate. Defined.

Lemma series_has_36_keys_iff_no_day_31_witness :
  exists m,
    (generate_series (Fin 500000) w_june15).1 = Return m /\
    (size m = 36%nat <-> no_day_31 (anchor_of w_june15) = true) /\
    (no_day_31 (anchor_of w_june15) = true ->
     forall i r, 0 <= i < 36 -> draws_of w_june15 !! Z.to_nat i = Some r ->
       m !! date_key (anchor_of w_june15) i = Some (monthly_value (Fin 500000) r)).
Proof.
  exact (series_has_36_keys_iff_no_day_31 (Fin 500000) w_june15 june15_is_late_enough).
Defined.

(** From 15 June 2024 no date of iterations 0 to 34 is a 31st (the last
    one, 31 July 2021, is); from 31 January 2024 the first one is. *)
Example days_of_two_anchors :
  no_day_31 june15 = true /\ day_of june15 35 = 31 /\
  no_day_31 jan31 = false /\ day_of jan31 0 = 31 /\ day_of jan31 1 = 1.
Proof. vm_compute. repeat split. Qed.

(** The browser breaks down once the housing-market page is loaded: the
    wait for the price element fails. *)
Lemma failure_is_logged_last_witness :
  self_driver (get_median_sale_prices "TX" "Austin" (World (Breaking.Left 18) true [])).2
    = true /\
  exists evs,
    log (get_median_sale_prices "TX" "Austin" (World (Breaking.Left 18) true [])).2
    = [] ++ evs ++
      [Logged ERROR
         ((if is_ValueError Breaking.crash then "ValueError in get_median_sale_prices: "
           else "Error in get_median_sale_prices: ") ++ exn_msg Breaking.crash)] /\
    quits evs = 0%nat /\ file_events evs = [].
Proof.
  apply (failure_is_logged_last "TX" "Austin" (World (Breaking.Left 18) true [])
           (get_median_sale_prices "TX" "Austin" (World (Breaking.Left 18) true [])).2
           Breaking.crash).
  - vm_compute. reflexivity.
  - reflexivity.
Defined.

(** Amounts as [main] prints them *)
Example printed_amounts :
  Console.format_2f (Fin (1234567891 # 1000)) = "1,234,567.89"%string /\
  Console.format_2f (Fin (450000 # 1)) = "450,000.00"%string /\
  Console.format_2f (Fin (- (1 # 1000))) = "-0.00"%string /\
  Console.format_2f (Fin (125 # 1000)) = "0.12"%string /\
  Console.format_2f (Fin (375 # 1000)) = "0.38"%string.
Proof. vm_compute. repeat split. Qed.

Lemma jan31_is_late_enough : anchor_ok (anchor_of w_jan31).
Proof. unfold anchor_ok. vm_compute. split; discriminate. Defined.

Lemma series_key_count_witness :
  exists m,
    (generate_series (Fin 500000) w_jan31).1 = Return m /\
    (size m + days_31 (anchor_of w_jan31))%nat = 36%nat.
Proof.
  exact (series_key_count (Fin 500000) w_jan31 jan31_is_late_enough).
Defined.

(** Three anchors in figures: none, one and two of the dates fall on a
    31st (from 31 March 2024 the dates run 31 March, 1 March, 31 January,
    1 January, ...). *)
Example days_31_of_three_anchors :
  days_31 june15 = 0%nat /\ days_31 jan31 = 1%nat /\
  days_31 (DateTime 2024 3 31 12 0 0 0) = 2%nat /\
  map (day_of (DateTime 2024 3 31 12 0 0 0)) [0; 1; 2; 3] = [31; 1; 31; 1] /\
  map (date_key (DateTime 2024 3 31 12 0 0 0)) [0; 1; 2; 3]
    = ["2024-03"; "2024-03"; "2024-01"; "2024-01"]%string.
Proof. vm_compute. repeat split. Qed.

Lemma series_prints_and_reads_back_witness :
  exists m,
    (generate_series (Fin 500000) w_jan31).1 = Return m /\
    forall k v, m !! k = Some v ->
      PyFloat.round2 v = v /\
      convert_price_text ("$" ++ Console.format_2f v) = Return v.
Proof.
  exact (series_prints_and_reads_back (Fin 500000) w_jan31 jan31_is_late_enough).
Defined.

End Sessions.
